(** * Form-factor reweighting of the RDX run-1 ntuples: model and properties

    Shallow embedding of [src/rdx-run1-sample.cpp].

    - [Double_t] is IEEE 754 binary64, modelled by the primitive [float]
      (same format, round to nearest even), so every arithmetic expression of
      the source is evaluated with the rounding the program performs.
    - [Int_t] is a signed 32-bit integer, modelled by [Z] with the
      two's-complement wrap-around written out ([wrap32]).
    - The ROOT vector classes ([TVector3], [TLorentzVector]) are records with
      the arithmetic of their inline member functions.
    - The Hammer evaluator is an external collaborator: its calls are the
      fields of [HammerAPI], threaded as explicit state.
    - The event loop of [reweight] is a left fold of [iteration] over the
      entries the [TTreeReader] yields. *)

From Stdlib Require Import ZArith NArith List Bool Lia String Floats.
From Stdlib Require Import Permutation.
From ExtLib Require Import Structures.Monad Structures.MonadState.
From ExtLib Require Import Data.Monads.StateMonad.
Import ListNotations.
Import MonadNotation.

Local Open Scope monad_scope.
Local Open Scope Z_scope.

(** ** Machine numbers *)

Definition Double_t := float.

Module Int32.

Definition modulus : Z := 2 ^ 32.
Definition min_signed : Z := - 2 ^ 31.
Definition max_signed : Z := 2 ^ 31 - 1.

(** Signed representative of [x] modulo [2^32]. *)
Definition wrap32 (x : Z) : Z :=
    (x + 2 ^ 31) mod modulus - 2 ^ 31.

Definition in_range (x : Z) : Prop := min_signed <= x <= max_signed.

(** [a * b] and [-a] on [int]. *)
Definition mul (a b : Z) : Z := wrap32 (a * b).
Definition neg (a : Z) : Z := wrap32 (- a).

End Int32.

Definition Int_t := Z.

(** ** ROOT vectors

    [TVector3] holds [fX, fY, fZ]; [TLorentzVector] holds the spatial part
    [fP] and the time component [fE]. *)

Local Open Scope float_scope.

Record TVector3 := mkV3 { fX : Double_t; fY : Double_t; fZ : Double_t }.

Record TLorentzVector := mkLV { fP : TVector3; fE : Double_t }.

Module V3.

(** [TVector3::operator-] (unary). *)
Definition opp (v : TVector3) : TVector3 :=
    mkV3 (- fX v) (- fY v) (- fZ v).

(** [operator+] and [operator-] on [TVector3]. *)
Definition add (a b : TVector3) : TVector3 :=
    mkV3 (fX a + fX b) (fY a + fY b) (fZ a + fZ b).

Definition sub (a b : TVector3) : TVector3 :=
    mkV3 (fX a - fX b) (fY a - fY b) (fZ a - fZ b).

(** [TVector3::Mag2]: [fX*fX + fY*fY + fZ*fZ]. *)
Definition Mag2 (v : TVector3) : Double_t :=
    fX v * fX v + fY v * fY v + fZ v * fZ v.

End V3.

Module LV.

(** [SetPxPyPzE(px, py, pz, e)]. *)
Definition SetPxPyPzE (px py pz e : Double_t) : TLorentzVector :=
    mkLV (mkV3 px py pz) e.

Definition X (q : TLorentzVector) := fX (fP q).
Definition Y (q : TLorentzVector) := fY (fP q).
Definition Z (q : TLorentzVector) := fZ (fP q).
Definition T (q : TLorentzVector) := fE q.
Definition E (q : TLorentzVector) := fE q.

(** [operator+=] and [operator-]. *)
Definition add (a b : TLorentzVector) : TLorentzVector :=
    mkLV (V3.add (fP a) (fP b)) (fE a + fE b).

Definition sub (a b : TLorentzVector) : TLorentzVector :=
    mkLV (V3.sub (fP a) (fP b)) (fE a - fE b).

(** [M2() = Mag2() = T()*T() - fP.Mag2()]. *)
Definition M2 (q : TLorentzVector) : Double_t :=
    T q * T q - V3.Mag2 (fP q).

(** [Boost(bx, by, bz)]: the four new components are all computed from
    the components before the boost. *)
Definition Boost3 (bx by_ bz : Double_t) (q : TLorentzVector)
    : TLorentzVector :=
    let b2 := bx * bx + by_ * by_ + bz * bz in
    let gamma := 1 / sqrt (1 - b2) in
    let bp := bx * X q + by_ * Y q + bz * Z q in
    let gamma2 := if 0 <? b2 then (gamma - 1) / b2 else 0 in
    mkLV (mkV3 (X q + gamma2 * bp * bx + gamma * bx * T q)
               (Y q + gamma2 * bp * by_ + gamma * by_ * T q)
               (Z q + gamma2 * bp * bz + gamma * bz * T q))
         (gamma * (T q + bp)).

(** [Boost(const TVector3&)]. *)
Definition Boost (b : TVector3) (q : TLorentzVector) : TLorentzVector :=
    Boost3 (fX b) (fY b) (fZ b) q.

End LV.

(** ** General helper functions *)

(** [calc_mm2_with_nu]: the accumulator starts at [(0,0,0,0)] and every
    element of the initializer list is added in order. *)
Definition zero_mom : TLorentzVector := LV.SetPxPyPzE 0 0 0 0.

Definition calc_mm2_with_nu (momenta : list TLorentzVector) : Double_t :=
  let tot_mom := fold_left LV.add momenta zero_mom in
  LV.M2 tot_mom / 1E6.

(** ** Helper functions for B0 -> Dst Tau Nu *)

(** The six objects the caller hands to [calc_true_fit_vars].  The first
    five are bound by reference; [mu_mom] is passed by value. *)
Record FitFrame := mkFitFrame {
  q2 : Double_t;
  el : Double_t;
  b_lab_v : TVector3;
  b_mom : TLorentzVector;
  dst_mom : TLorentzVector;
  mu_mom : TLorentzVector
}.

(** Activation record of the callee: the caller's objects it can reach
    through its reference parameters, and its own copy of the muon
    four-momentum. *)
Record Activation := mkActivation {
  caller : FitFrame;
  mu_mom_copy : TLorentzVector
}.

Definition set_q2 (v : Double_t) (f : FitFrame) : FitFrame :=
  mkFitFrame v (el f) (b_lab_v f) (b_mom f) (dst_mom f) (mu_mom f).

Definition set_el (v : Double_t) (f : FitFrame) : FitFrame :=
  mkFitFrame (q2 f) v (b_lab_v f) (b_mom f) (dst_mom f) (mu_mom f).

Definition assign_q2 (v : Double_t) : state Activation unit :=
  modify (fun a => mkActivation (set_q2 v (caller a)) (mu_mom_copy a)) ;;
  ret tt.

Definition assign_el (v : Double_t) : state Activation unit :=
  modify (fun a => mkActivation (set_el v (caller a)) (mu_mom_copy a)) ;;
  ret tt.

(** [mu_mom.Boost(v)] inside the callee acts on the copy. *)
Definition boost_mu_mom (v : TVector3) : state Activation unit :=
  modify (fun a => mkActivation (caller a) (LV.Boost v (mu_mom_copy a))) ;;
  ret tt.

Definition calc_true_fit_vars_body : state Activation unit :=
  a <- get ;;
  assign_q2 (LV.M2 (LV.sub (b_mom (caller a)) (dst_mom (caller a))) / 1E6) ;;
  boost_mu_mom (V3.opp (b_lab_v (caller a))) ;;
  a' <- get ;;
  assign_el (LV.E (mu_mom_copy a') / 1E3).

(** The call: the by-value parameter is initialised from the caller's
    [mu_mom], the body runs, and the copy dies with the activation. *)
Definition calc_true_fit_vars (f : FitFrame) : FitFrame :=
  caller (execState calc_true_fit_vars_body (mkActivation f (mu_mom f))).

(** ** Hammer objects built by the program

    [Hammer::FourMomentum(pe, px, py, pz)], [Hammer::Particle(p, pdgId)] and
    the [Hammer::Process] container: [addParticle] appends and returns the
    index of the new particle, [addVertex] records a parent index with its
    ordered daughters. *)

Record FourMomentum := mkFourMomentum {
  fm_E : Double_t; fm_px : Double_t; fm_py : Double_t; fm_pz : Double_t
}.

Definition PdgId := Z.

Record Particle := mkParticle { p_mom : FourMomentum; p_pdg : PdgId }.

Definition ParticleIndex := nat.

Record Process := mkProcess {
  proc_particles : list Particle;
  proc_vertices : list (ParticleIndex * list ParticleIndex)
}.

Definition empty_process : Process := mkProcess [] [].

Definition addParticle (p : Particle) : state Process ParticleIndex :=
  proc <- get ;;
  put (mkProcess (proc_particles proc ++ [p]) (proc_vertices proc)) ;;
  ret (List.length (proc_particles proc)).

Definition addVertex (parent : ParticleIndex) (daughters : list ParticleIndex)
  : state Process unit :=
  proc <- get ;;
  put (mkProcess (proc_particles proc)
                 (proc_vertices proc ++ [(parent, daughters)])).

(** [particle(pe, px, py, pz, pid)]. *)
Definition particle (pe px py pz : Double_t) (pid : Int_t) : Particle :=
  let four_mom := mkFourMomentum pe px py pz in
  let part_id : PdgId := pid in
  mkParticle four_mom part_id.

(** [add_ham_part_Tau]: note that the parameter order (B0, Dst, D0, SlowPi,
    K, Pi, Tau, Anti_Nu_Tau, Nu_Tau, Mu, Anti_Nu_Mu) differs from the order
    in which the particles are registered. *)
Definition add_ham_part_Tau
  (B0 Dst D0 SlowPi K Pi Tau Anti_Nu_Tau Nu_Tau Mu Anti_Nu_Mu : Particle)
  : state Process unit :=
  B0_idx <- addParticle B0 ;;
  Dst_idx <- addParticle Dst ;;
  SlowPi_idx <- addParticle SlowPi ;;
  D0_idx <- addParticle D0 ;;
  K_idx <- addParticle K ;;
  Pi_idx <- addParticle Pi ;;
  Mu_idx <- addParticle Mu ;;
  Tau_idx <- addParticle Tau ;;
  Anti_Nu_Mu_idx <- addParticle Anti_Nu_Mu ;;
  Anti_Nu_Tau_idx <- addParticle Anti_Nu_Tau ;;
  Nu_Tau_idx <- addParticle Nu_Tau ;;
  addVertex B0_idx [Dst_idx; Tau_idx; Anti_Nu_Tau_idx] ;;
  addVertex Tau_idx [Mu_idx; Nu_Tau_idx; Anti_Nu_Mu_idx] ;;
  addVertex Dst_idx [D0_idx; SlowPi_idx] ;;
  addVertex D0_idx [K_idx; Pi_idx].

(** ** The Hammer evaluator

    The calls the program makes on its [Hammer::Hammer] object.  Every call
    may change the object, so each one maps the state before to the state
    after; [addProcess] also yields the process identifier ([size_t]) and
    [getWeight] the weight. *)

Record HammerAPI := mkHammerAPI {
  Ham : Type;
  new_ham : Ham;
  includeDecay : list string -> Ham -> Ham;
  addFFScheme : string -> list (string * string) -> Ham -> Ham;
  setFFInputScheme : list (string * string) -> Ham -> Ham;
  setUnits : string -> Ham -> Ham;
  initRun : Ham -> Ham;
  initEvent : Ham -> Ham;
  addProcess : Process -> Ham -> N * Ham;
  processEvent : Ham -> Ham;
  getWeight : string -> Ham -> Double_t * Ham
}.

(** ** Input and output trees *)

(** The five truth branches of one particle: [<name>_id],
    [<name>_true_pe], [<name>_true_px], [<name>_true_py],
    [<name>_true_pz]. *)
Record Truth := mkTruth {
  t_id : Int_t;
  true_pe : Double_t;
  true_px : Double_t;
  true_py : Double_t;
  true_pz : Double_t
}.

(** One entry of the input tree. *)
Record Event := mkEvent {
  eventNumber : N;
  runNumber : N;
  b : Truth;
  dst : Truth;
  d0 : Truth;
  mu : Truth;
  k : Truth;
  pi : Truth;
  spi : Truth;
  tau : Truth;
  anu_tau : Truth;
  nu_tau : Truth;
  anu_mu : Truth
}.

Definition b_id (ev : Event) : Int_t := t_id (b ev).
Definition dst_id (ev : Event) : Int_t := t_id (dst ev).
Definition b_true_pe (ev : Event) : Double_t := true_pe (b ev).
Definition b_true_px (ev : Event) : Double_t := true_px (b ev).
Definition b_true_py (ev : Event) : Double_t := true_py (b ev).
Definition b_true_pz (ev : Event) : Double_t := true_pz (b ev).

(** The variables the output branches point to. *)
Record Branches := mkBranches {
  eventNumber_out : N;
  runNumber_out : N;
  w_ff_out : Double_t;
  q2_out : Double_t;
  mm2_out : Double_t;
  el_out : Double_t
}.

(** One entry of the output tree, by branch name. *)
Record Row := mkRow {
  r_eventNumber : N;
  r_runNumber : N;
  w_ff : Double_t;
  q2_true : Double_t;
  mm2_true : Double_t;
  el_true : Double_t
}.

(** [output.Fill()] copies the current value of every branch variable. *)
Definition Fill (v : Branches) (output : list Row) : list Row :=
  output ++ [mkRow (eventNumber_out v) (runNumber_out v) (w_ff_out v)
                   (q2_out v) (mm2_out v) (el_out v)].

(** A line written to [std::cout]:
    "Problematic weight of <weight> at <eventNumber>". *)
Record Diagnostic := mkDiagnostic {
  diag_weight : Double_t;
  diag_eventNumber : N
}.

(** ** Main reweighting routine *)

(** Construction of a [TLorentzVector] / a [Particle] from truth branches. *)
Definition lorentz_of (t : Truth) : TLorentzVector :=
  LV.SetPxPyPzE (true_px t) (true_py t) (true_pz t) (true_pe t).

Definition particle_of (t : Truth) (pid : Int_t) : Particle :=
  particle (true_pe t) (true_px t) (true_py t) (true_pz t) pid.

(** The sign fix of the B identifier. *)
Definition b_id_fix (b_id dst_id : Int_t) : Int_t :=
  if (0 <? Int32.mul b_id dst_id)%Z then Int32.neg b_id else b_id.

(** The process built for one entry. *)
Definition build_process (ev : Event) : Process :=
  let B0 := particle_of (b ev) (b_id_fix (b_id ev) (dst_id ev)) in
  let Dst := particle_of (dst ev) (dst_id ev) in
  let SlowPi := particle_of (spi ev) (t_id (spi ev)) in
  let D0 := particle_of (d0 ev) (t_id (d0 ev)) in
  let K := particle_of (k ev) (t_id (k ev)) in
  let Pi := particle_of (pi ev) (t_id (pi ev)) in
  let Mu := particle_of (mu ev) (t_id (mu ev)) in
  let Tau := particle_of (tau ev) (t_id (tau ev)) in
  let Anti_Nu_Mu := particle_of (anu_mu ev) (t_id (anu_mu ev)) in
  let Anti_Nu_Tau := particle_of (anu_tau ev) (t_id (anu_tau ev)) in
  let Nu_Tau := particle_of (nu_tau ev) (t_id (nu_tau ev)) in
  execState
    (add_ham_part_Tau B0 Dst D0 SlowPi K Pi Tau Anti_Nu_Tau Nu_Tau
                      Mu Anti_Nu_Mu)
    empty_process.

(** The kinematic part of the loop body: the branch variables after
    "Compute q2, mm2, and el". *)
Definition fit_vars (ev : Event) (v : Branches) : Branches :=
  let v_x := b_true_px ev / b_true_pe ev in
  let v_y := b_true_py ev / b_true_pe ev in
  let v_z := b_true_pz ev / b_true_pe ev in
  let b_lab_v := mkV3 v_x v_y v_z in
  let f := calc_true_fit_vars
             (mkFitFrame (q2_out v) (el_out v) b_lab_v
                         (lorentz_of (b ev)) (lorentz_of (dst ev))
                         (lorentz_of (mu ev))) in
  let mm2 := calc_mm2_with_nu
               [lorentz_of (nu_tau ev); lorentz_of (anu_tau ev);
                lorentz_of (anu_mu ev)] in
  mkBranches (eventNumber_out v) (runNumber_out v) (w_ff_out v)
             (q2 f) mm2 (el f).

Section Reweight.

Context (api : HammerAPI).

Record LoopState := mkLoopState {
  ham : Ham api;
  vars : Branches;
  output : list Row;
  cout : list Diagnostic
}.

(** "Setup HAMMER". *)
Definition setup_hammer : Ham api :=
  let ham := new_ham api in
  let semi_tau_decay := ["BD*TauNu"; "TauEllNuNu"]%string in
  let ham := includeDecay api semi_tau_decay ham in
  let ham := addFFScheme api "SemiTauonic" [("BD*", "CLN")]%string ham in
  let ham := setFFInputScheme api [("BD*", "ISGW2")]%string ham in
  let ham := setUnits api "MeV" ham in
  initRun api ham.

(** [ham.initEvent(); auto proc_id = ham.addProcess(proc);] *)
Definition submit (h : Ham api) (ev : Event) : N * Ham api :=
  addProcess api (build_process ev) (initEvent api h).

(** [ham.processEvent(); w_ff_out = ham.getWeight("SemiTauonic");] *)
Definition evaluate (h : Ham api) : Double_t * Ham api :=
  getWeight api "SemiTauonic" (processEvent api h).

Definition set_event (ev : Event) (v : Branches) : Branches :=
  mkBranches (eventNumber ev) (runNumber ev) (w_ff_out v)
             (q2_out v) (mm2_out v) (el_out v).

Definition set_w_ff (w : Double_t) (v : Branches) : Branches :=
  mkBranches (eventNumber_out v) (runNumber_out v) w
             (q2_out v) (mm2_out v) (el_out v).

(** One pass through the body of [while (reader.Next())]. *)
Definition iteration (s : LoopState) (ev : Event) : LoopState :=
  let v := fit_vars ev (set_event ev (vars s)) in
  let '(proc_id, h) := submit (ham s) ev in
  if negb (proc_id =? 0)%N then
    let '(w, h) := evaluate h in
    let v := set_w_ff w v in
    let out := if 10 <? w_ff_out v
               then cout s ++ [mkDiagnostic (w_ff_out v) (eventNumber ev)]
               else cout s in
    mkLoopState h v (Fill v (output s)) out
  else
    mkLoopState h v (output s) (cout s).

(** [reweight]: the entries are those [reader.Next()] yields, in storage
    order; [v0] stands for the uninitialised branch variables.  The output
    tree of the final state is what [output_file->Write] commits. *)
Definition reweight_from (s : LoopState) (entries : list Event) : LoopState :=
  fold_left iteration entries s.

Definition reweight (entries : list Event) (v0 : Branches) : LoopState :=
  reweight_from (mkLoopState setup_hammer v0 [] []) entries.

(** The loop state in which each entry is met. *)
Fixpoint states_before (s : LoopState) (entries : list Event)
  : list (LoopState * Event) :=
  match entries with
  | [] => []
  | ev :: rest => (s, ev) :: states_before (iteration s ev) rest
  end.

(** Whether the submission of [ev] in state [s] yields a nonzero id. *)
Definition accepted (se : LoopState * Event) : bool :=
  negb (fst (submit (ham (fst se)) (snd se)) =? 0)%N.

(** The weight retrieved for [ev] in state [s]. *)
Definition retrieved_weight (s : LoopState) (ev : Event) : Double_t :=
  fst (evaluate (snd (submit (ham s) ev))).

(** The row written for an accepted entry. *)
Definition row_of (se : LoopState * Event) : Row :=
  let '(s, ev) := se in
  let v := fit_vars ev (set_event ev (vars s)) in
  mkRow (eventNumber ev) (runNumber ev) (retrieved_weight s ev)
        (q2_out v) (mm2_out v) (el_out v).

(** The diagnostic an accepted entry causes, if any. *)
Definition diagnostics_of (se : LoopState * Event) : list Diagnostic :=
  let w := retrieved_weight (fst se) (snd se) in
  if 10 <? w then [mkDiagnostic w (eventNumber (snd se))] else [].

End Reweight.

Arguments ham {api} _.
Arguments vars {api} _.
Arguments output {api} _.
Arguments cout {api} _.

(** ** A scripted evaluator

    A test double for the evaluator: it replays a list of answers, one per
    event.  [initEvent] moves to the next answer, [addProcess] returns its
    identifier, [getWeight] its weight. *)

Record Script := mkScript {
  pending : list (N * Double_t);
  current : N * Double_t
}.

Definition scripted (answers : list (N * Double_t)) : HammerAPI :=
  mkHammerAPI Script
    (mkScript answers (0%N, nan))
    (fun _ h => h) (fun _ _ h => h) (fun _ h => h) (fun _ h => h)
    (fun h => h)
    (fun h => match pending h with
              | [] => mkScript [] (0%N, nan)
              | a :: rest => mkScript rest a
              end)
    (fun _ h => (fst (current h), h))
    (fun h => h)
    (fun _ h => (snd (current h), h)).

(** Sample entries: a B0bar -> D*+ tau nu decay with the B at rest. *)
Definition sample_b : Truth := mkTruth (-511)%Z 5279 0 0 0.
Definition sample_dst : Truth := mkTruth 413%Z 2100 0 0 600.
Definition sample_d0 : Truth := mkTruth 421%Z 1950 0 0 550.
Definition sample_mu : Truth := mkTruth 13%Z 800 100 0 (-700).
Definition sample_k : Truth := mkTruth (-321)%Z 1000 0 0 300.
Definition sample_pi : Truth := mkTruth 211%Z 950 0 0 250.
Definition sample_spi : Truth := mkTruth 211%Z 150 0 0 50.
Definition sample_tau : Truth := mkTruth 15%Z 2500 0 0 (-400).
Definition sample_anu_tau : Truth := mkTruth (-16)%Z 679 0 0 (-200).
Definition sample_nu_tau : Truth := mkTruth 16%Z 900 (-50) 0 200.
Definition sample_anu_mu : Truth := mkTruth (-14)%Z 800 (-50) 0 100.

Definition sample_event (n : N) (b_ : Truth) : Event :=
  mkEvent n 1%N b_ sample_dst sample_d0 sample_mu sample_k sample_pi
          sample_spi sample_tau sample_anu_tau sample_nu_tau sample_anu_mu.

Definition v_init : Branches := mkBranches 0 0 0 0 0 0.



(** A B with all-zero four-momentum. *)
Definition zero_energy_b : Truth := mkTruth (-511)%Z 0 0 0 0.

(** Three neutrinos at rest in momentum with energies 0.1, 0.2 and 0.3 MeV
    (the nearest doubles, written exactly). *)
Definition nu_01 : TLorentzVector := LV.SetPxPyPzE 0 0 0 0x1.999999999999ap-4.
Definition nu_02 : TLorentzVector := LV.SetPxPyPzE 0 0 0 0x1.999999999999ap-3.
Definition nu_03 : TLorentzVector := LV.SetPxPyPzE 0 0 0 0x1.3333333333333p-2.

(** The caller's objects for a B at rest (velocity components of both zero
    signs) and the sample muon. *)
Definition frame_at_rest : FitFrame :=
  mkFitFrame 0 0 (mkV3 0 (-0) 0) (LV.SetPxPyPzE 0 0 0 5279)
             (LV.SetPxPyPzE 0 0 600 2100) (LV.SetPxPyPzE 100 0 (-700) 800).

(** A scripted run over four entries: accepted, refused, accepted with a
    weight above 10, and accepted with a B of zero energy. *)
Definition sample_answers : list (N * Double_t) :=
  [(1%N, 0.75); (0%N, 1); (7%N, 12.5); (3%N, 1)].

Definition sample_entries : list Event :=
  [sample_event 10 sample_b; sample_event 11 sample_b;
   sample_event 12 sample_b; sample_event 13 zero_energy_b].

(** The state in which the loop of [reweight] starts. *)
Definition initial_state (api : HammerAPI) (v0 : Branches) : LoopState api :=
  mkLoopState api (setup_hammer api) v0 [] [].

(** Zero velocity with a muon whose [px] is infinite, and zero velocity
    with a muon whose energy is [-0]. *)
Definition frame_infinite_px : FitFrame :=
  mkFitFrame 0 0 (mkV3 0 0 0) (LV.SetPxPyPzE 0 0 0 5279)
             (LV.SetPxPyPzE 0 0 600 2100)
             (LV.SetPxPyPzE infinity 0 (-700) 800).

Definition frame_negative_zero_energy : FitFrame :=
  mkFitFrame 0 0 (mkV3 (-0) (-0) (-0)) (LV.SetPxPyPzE 0 0 0 5279)
             (LV.SetPxPyPzE 0 0 600 2100)
             (LV.SetPxPyPzE 100 0 (-700) (-0)).

(** ** Notions used in the statements *)

(** Both codes positive or both negative. *)
Definition same_sign (a b : Z) : bool :=
  ((0 <? a) && (0 <? b) || (a <? 0) && (b <? 0))%Z.

(** The type codes of the particles of a process, in registration order. *)
Definition pdg_codes (proc : Process) : list PdgId :=
  map p_pdg (proc_particles proc).

(** Invariant mass-squared of [parent - resonance] over [1e6], component by
    component, with no boost involved. *)
Definition momentum_transfer_squared (parent resonance : TLorentzVector)
  : Double_t :=
  let dE := fE parent - fE resonance in
  let dx := LV.X parent - LV.X resonance in
  let dy := LV.Y parent - LV.Y resonance in
  let dz := LV.Z parent - LV.Z resonance in
  (dE * dE - (dx * dx + dy * dy + dz * dz)) / 1E6.

(** Equal as numbers: the same double, or two zeros of either sign. *)
Definition num_eq (x y : Double_t) : Prop :=
  x = y \/ (is_zero x = true /\ is_zero y = true).

(** A vector whose three components are zeros (of either sign). *)
Definition zero_vector (v : TVector3) : Prop :=
  is_zero (fX v) = true /\ is_zero (fY v) = true /\ is_zero (fZ v) = true.

(** A vector whose three components are finite doubles. *)
Definition finite_vector (v : TVector3) : Prop :=
  is_finite (fX v) = true /\ is_finite (fY v) = true
  /\ is_finite (fZ v) = true.

(** Four-momenta equal as numbers, component by component. *)
Definition lv_num_eq (p q : TLorentzVector) : Prop :=
  num_eq (LV.X p) (LV.X q) /\ num_eq (LV.Y p) (LV.Y q)
  /\ num_eq (LV.Z p) (LV.Z q) /\ num_eq (LV.T p) (LV.T q).

(** ** Notions used for the decay tree *)

(** The particles a vertex refers to: its parent and its daughters, looked
    up by index in the process. *)
Definition resolve (proc : Process) (v : ParticleIndex * list ParticleIndex)
  : option Particle * list (option Particle) :=
  (nth_error (proc_particles proc) (fst v),
   map (nth_error (proc_particles proc)) (snd v)).

(** All daughter indices of a list of vertices, in order. *)
Definition daughters (vs : list (ParticleIndex * list ParticleIndex))
  : list ParticleIndex :=
  flat_map snd vs.

(** The vertices [add_ham_part_Tau] adds to a process that already holds
    [n] particles. *)
Definition tau_vertices (n : nat) : list (ParticleIndex * list ParticleIndex) :=
  [(n, [n + 1; n + 7; n + 9]); (n + 7, [n + 6; n + 10; n + 8]);
   (n + 1, [n + 3; n + 2]); (n + 3, [n + 4; n + 5])]%nat.

(** The four-momentum of the [i]-th particle of a process, as a ROOT
    vector (the zero vector if there is no such particle). *)
Definition to_lorentz (m : FourMomentum) : TLorentzVector :=
  LV.SetPxPyPzE (fm_px m) (fm_py m) (fm_pz m) (fm_E m).

Definition tree_momentum (proc : Process) (i : ParticleIndex)
  : TLorentzVector :=
  match nth_error (proc_particles proc) i with
  | Some p => to_lorentz (p_mom p)
  | None => zero_mom
  end.

(** ** A recording evaluator

    [traced api] behaves as [api] and notes every call made on it, oldest
    first. *)

Inductive Call :=
| IncludeDecay (names : list string)
| AddFFScheme (label : string) (schemes : list (string * string))
| SetFFInputScheme (schemes : list (string * string))
| SetUnits (name : string)
| InitRun
| InitEvent
| AddProcess (proc : Process)
| ProcessEvent
| GetWeight (scheme : string).

Definition note {A : Type} (c : Call) (h : A * list Call) (h' : A)
  : A * list Call :=
  (h', snd h ++ [c]).

Definition traced (api : HammerAPI) : HammerAPI :=
  mkHammerAPI (Ham api * list Call)
    (new_ham api, [])
    (fun names h =>
       note (IncludeDecay names) h (includeDecay api names (fst h)))
    (fun label schemes h =>
       note (AddFFScheme label schemes) h
            (addFFScheme api label schemes (fst h)))
    (fun schemes h =>
       note (SetFFInputScheme schemes) h
            (setFFInputScheme api schemes (fst h)))
    (fun name h => note (SetUnits name) h (setUnits api name (fst h)))
    (fun h => note InitRun h (initRun api (fst h)))
    (fun h => note InitEvent h (initEvent api (fst h)))
    (fun proc h =>
       (fst (addProcess api proc (fst h)),
        note (AddProcess proc) h (snd (addProcess api proc (fst h)))))
    (fun h => note ProcessEvent h (processEvent api (fst h)))
    (fun scheme h =>
       (fst (getWeight api scheme (fst h)),
        note (GetWeight scheme) h (snd (getWeight api scheme (fst h))))).

(** The calls of "Setup HAMMER". *)
Definition setup_calls : list Call :=
  [IncludeDecay ["BD*TauNu"; "TauEllNuNu"]%string;
   AddFFScheme "SemiTauonic" [("BD*", "CLN")]%string;
   SetFFInputScheme [("BD*", "ISGW2")]%string;
   SetUnits "MeV";
   InitRun].

(** The calls of one pass through the loop body. *)
Definition entry_calls (ev : Event) (acc : bool) : list Call :=
  [InitEvent; AddProcess (build_process ev)]
  ++ (if acc then [ProcessEvent; GetWeight "SemiTauonic"] else []).

(** A traced loop state and a plain one that agree on everything but the
    record of calls. *)
Definition same_run {api : HammerAPI}
  (st : LoopState (traced api)) (s : LoopState api) : Prop :=
  fst (ham st) = ham s /\ vars st = vars s
  /\ output st = output s /\ cout st = cout s.

(** An entry whose B has zero spatial momentum and an energy that is
    neither zero nor NaN, and whose muon momentum is finite. *)
Definition b_at_rest (ev : Event) : Prop :=
  is_zero (b_true_px ev) = true /\ is_zero (b_true_py ev) = true
  /\ is_zero (b_true_pz ev) = true
  /\ is_zero (b_true_pe ev) = false /\ is_nan (b_true_pe ev) = false
  /\ finite_vector (fP (lorentz_of (mu ev))).

(** * Properties *)

(** ** 32-bit integers *)

Module Int32Facts.

Import Int32.

Lemma wrap32_in_range x : in_range x -> wrap32 x = x.
Proof.
  unfold in_range, wrap32, min_signed, max_signed, modulus. intros H.
  rewrite Z.mod_small; lia.
Qed.

Lemma wrap32_0 : wrap32 0 = 0%Z.
Proof. reflexivity. Qed.

Lemma mul_exact a b : in_range (a * b) -> mul a b = (a * b)%Z.
Proof. apply wrap32_in_range. Qed.

Lemma same_sign_pos a b : same_sign a b = true <-> (0 < a * b)%Z.
Proof.
  unfold same_sign.
  rewrite orb_true_iff, !andb_true_iff, !Z.ltb_lt. split.
  - intros [[Ha Hb] | [Ha Hb]]; nia.
  - intros H.
    destruct (Z.lt_trichotomy a 0) as [Ha | [Ha | Ha]];
      destruct (Z.lt_trichotomy b 0) as [Hb | [Hb | Hb]]; auto; nia.
Qed.

(** A same-sign pair with a representable product has a representable
    opposite. *)
Lemma same_sign_neg_in_range a b :
  in_range (a * b) -> same_sign a b = true -> in_range (- a).
Proof.
  unfold in_range, min_signed, max_signed, same_sign.
  rewrite orb_true_iff, !andb_true_iff, !Z.ltb_lt.
  intros H [[Ha Hb] | [Ha Hb]]; nia.
Qed.

End Int32Facts.

(** In the absence of overflow the fix is the sign rule. *)
Lemma b_id_fix_exact b_id dst_id :
  Int32.in_range (b_id * dst_id) ->
  b_id_fix b_id dst_id = if same_sign b_id dst_id then (- b_id)%Z else b_id.
Proof.
  intros H. unfold b_id_fix. rewrite Int32Facts.mul_exact by assumption.
  destruct (same_sign b_id dst_id) eqn:S.
  - pose proof (proj1 (Int32Facts.same_sign_pos _ _) S) as P.
    apply Z.ltb_lt in P. rewrite P.
    apply Int32Facts.wrap32_in_range.
    now apply Int32Facts.same_sign_neg_in_range with dst_id.
  - destruct (0 <? b_id * dst_id)%Z eqn:P; [|reflexivity].
    apply Z.ltb_lt, Int32Facts.same_sign_pos in P. congruence.
Qed.

(** The codes handed to the evaluator, whatever the entry. *)
Lemma build_process_codes ev :
  pdg_codes (build_process ev) =
  [b_id_fix (b_id ev) (dst_id ev); dst_id ev; t_id (spi ev); t_id (d0 ev);
   t_id (k ev); t_id (pi ev); t_id (mu ev); t_id (tau ev);
   t_id (anu_mu ev); t_id (anu_tau ev); t_id (nu_tau ev)].
Proof. reflexivity. Qed.

(** The four vertices, by index. *)
Lemma build_process_vertices ev :
  proc_vertices (build_process ev) =
  [(0, [1; 7; 9]); (7, [6; 10; 8]); (1, [3; 2]); (3, [4; 5])]%nat.
Proof. reflexivity. Qed.

(** X13: on every execution in which the product of the parent and
    resonance codes fits in a signed 32-bit integer (no signed overflow),
    the parent's code reaches the evaluator negated if the two codes have
    the same sign and unchanged otherwise, and the codes of the ten other
    particles are passed as recorded. *)
Theorem sign_correction_without_overflow ev :
  Int32.in_range (b_id ev) ->
  Int32.in_range (dst_id ev) ->
  Int32.in_range (b_id ev * dst_id ev) ->
  pdg_codes (build_process ev) =
  [(if same_sign (b_id ev) (dst_id ev) then (- b_id ev)%Z else b_id ev);
   dst_id ev; t_id (spi ev); t_id (d0 ev);
   t_id (k ev); t_id (pi ev); t_id (mu ev); t_id (tau ev);
   t_id (anu_mu ev); t_id (anu_tau ev); t_id (nu_tau ev)].
Proof.
  intros _ _ Hprod. rewrite build_process_codes.
  now rewrite b_id_fix_exact.
Qed.

(** The rule at a B0bar/D*+ pair (kept) and at a B0/D*+ pair (flipped). *)
Lemma sign_correction_without_overflow_witness :
  pdg_codes (build_process (sample_event 1 sample_b)) =
  [-511; 413; 211; 421; -321; 211; 13; 15; -14; -16; 16]%Z
  /\ pdg_codes (build_process
       (sample_event 2 (mkTruth 511%Z 5279 0 0 0))) =
     [-511; 413; 211; 421; -321; 211; 13; 15; -14; -16; 16]%Z.
Proof.
  split.
  - apply (sign_correction_without_overflow (sample_event 1 sample_b));
      vm_compute; split; discriminate.
  - apply (sign_correction_without_overflow
             (sample_event 2 (mkTruth 511%Z 5279 0 0 0)));
      vm_compute; split; discriminate.
Defined.


(** C10: a zero parent code or a zero resonance code makes the product
    zero, hence not positive: the pair does not count as same-sign and the
    parent's code is left unchanged. *)
Theorem zero_code_unchanged ev :
  b_id ev = 0%Z \/ dst_id ev = 0%Z ->
  same_sign (b_id ev) (dst_id ev) = false
  /\ Int32.mul (b_id ev) (dst_id ev) = 0%Z
  /\ b_id_fix (b_id ev) (dst_id ev) = b_id ev
  /\ hd_error (pdg_codes (build_process ev)) = Some (b_id ev).
Proof.
  intros H.
  assert (P : Int32.mul (b_id ev) (dst_id ev) = 0%Z).
  { unfold Int32.mul. destruct H as [-> | ->];
      [rewrite Z.mul_0_l | rewrite Z.mul_0_r]; apply Int32Facts.wrap32_0. }
  assert (F : b_id_fix (b_id ev) (dst_id ev) = b_id ev).
  { unfold b_id_fix. now rewrite P. }
  repeat split; trivial.
  - unfold same_sign. destruct H as [-> | ->]; cbn;
      rewrite ?andb_false_r; reflexivity.
  - rewrite build_process_codes. cbn [hd_error]. now rewrite F.
Qed.

Lemma zero_code_unchanged_witness :
  (b_id_fix 0 413 = 0)%Z /\ (b_id_fix 511 0 = 511)%Z.
Proof.
  split.
  - apply (zero_code_unchanged
             (sample_event 1 (mkTruth 0%Z 5279 0 0 0))).
    left; reflexivity.
  - apply (zero_code_unchanged
             (mkEvent 1%N 1%N (mkTruth 511%Z 5279 0 0 0)
                (mkTruth 0%Z 2100 0 0 600)
                sample_d0 sample_mu sample_k sample_pi sample_spi
                sample_tau sample_anu_tau sample_nu_tau sample_anu_mu)).
    right; reflexivity.
Defined.

(** ** Facts on binary64 arithmetic

    Derived from the specification of the primitive operations
    ([add_spec], [mul_spec], ...) over [spec_float]. *)

Module FloatFacts.

Lemma SF_zero_inv x s :
  Prim2SF x = S754_zero s -> x = if s then (-0) else 0.
Proof. intros H. apply Prim2SF_inj. rewrite H. destruct s; reflexivity. Qed.

Lemma SF_inf_inv x s :
  Prim2SF x = S754_infinity s -> x = if s then neg_infinity else infinity.
Proof. intros H. apply Prim2SF_inj. rewrite H. destruct s; reflexivity. Qed.

Lemma SF_nan_inv x : Prim2SF x = S754_nan -> x = nan.
Proof. intros H. apply Prim2SF_inj. rewrite H. reflexivity. Qed.

Lemma is_zero_inv x : is_zero x = true -> x = 0 \/ x = -0.
Proof.
  unfold is_zero. rewrite eqb_spec. intros H.
  destruct (Prim2SF x) as [s|s| |s m e] eqn:E.
  - apply SF_zero_inv in E. destruct s; auto.
  - destruct s; discriminate H.
  - discriminate H.
  - destruct s; discriminate H.
Qed.

Lemma is_finite_inv x :
  is_finite x = true ->
  (exists s, Prim2SF x = S754_zero s)
  \/ (exists s m e, Prim2SF x = S754_finite s m e).
Proof.
  unfold is_finite, is_nan, is_infinity.
  rewrite !eqb_spec, abs_spec. intros H.
  destruct (Prim2SF x) as [s|s| |s m e] eqn:E.
  - left; eauto.
  - destruct s; vm_compute in H; discriminate H.
  - vm_compute in H; discriminate H.
  - right; eauto.
Qed.

(** *** Addition *)

Lemma SF64add_comm x y : SF64add x y = SF64add y x.
Proof.
  destruct x as [[]|[]| |sx mx ex], y as [[]|[]| |sy my ey];
    try reflexivity.
  unfold SF64add, SFadd. rewrite (Z.min_comm ey ex), Z.add_comm.
  reflexivity.
Qed.

Lemma float_add_comm x y : x + y = y + x.
Proof. apply Prim2SF_inj. rewrite !add_spec. apply SF64add_comm. Qed.

(** Adding to the accumulator's initial [+0]: a zero of either sign gives
    [+0], anything else is returned as it is. *)
Lemma zero_add_l a :
  (is_zero a = true /\ 0 + a = 0) \/ (is_zero a = false /\ 0 + a = a).
Proof.
  destruct (Prim2SF a) as [s|s| |s m e] eqn:E.
  - left. apply SF_zero_inv in E. subst a. destruct s; split; reflexivity.
  - right. split.
    + unfold is_zero. rewrite eqb_spec, E. destruct s; reflexivity.
    + apply Prim2SF_inj. rewrite add_spec, E. reflexivity.
  - right. split.
    + unfold is_zero. rewrite eqb_spec, E. reflexivity.
    + apply Prim2SF_inj. rewrite add_spec, E. reflexivity.
  - right. split.
    + unfold is_zero. rewrite eqb_spec, E. destruct s; reflexivity.
    + apply Prim2SF_inj. rewrite add_spec, E. reflexivity.
Qed.

Lemma add_zeros a b :
  is_zero a = true -> is_zero b = true -> is_zero (a + b) = true.
Proof.
  intros Ha Hb. apply is_zero_inv in Ha, Hb.
  destruct Ha as [-> | ->], Hb as [-> | ->]; reflexivity.
Qed.

(** [t + z] for a zero [z]: [t] itself, except that [-0 + (+0)] is [+0]. *)
Lemma add_zero_r t z :
  is_zero z = true -> t + z = t \/ (t = -0 /\ t + z = 0).
Proof.
  intros Hz. apply is_zero_inv in Hz.
  destruct (Prim2SF t) as [s|s| |s m e] eqn:E.
  - apply SF_zero_inv in E. subst t.
    destruct s, Hz as [-> | ->]; auto.
  - left. apply Prim2SF_inj. rewrite add_spec, E.
    destruct Hz as [-> | ->]; destruct s; reflexivity.
  - left. apply Prim2SF_inj. rewrite add_spec, E.
    destruct Hz as [-> | ->]; reflexivity.
  - left. apply Prim2SF_inj. rewrite add_spec, E.
    destruct Hz as [-> | ->]; reflexivity.
Qed.

(** The first two summands of a sum that starts from [+0] commute. *)
Lemma first_two_commute a b : 0 + a + b = 0 + b + a.
Proof.
  destruct (zero_add_l a) as [[Za Ea] | [Za Ea]],
           (zero_add_l b) as [[Zb Eb] | [Zb Eb]];
    rewrite Ea, Eb, ?Ea, ?Eb.
  - reflexivity.
  - destruct (add_zero_r b a Za) as [H | [H _]]; [now rewrite H|].
    subst b. discriminate Zb.
  - destruct (add_zero_r a b Zb) as [H | [H _]]; [now rewrite H|].
    subst a. discriminate Za.
  - apply float_add_comm.
Qed.

(** *** Multiplication *)

Lemma mul_zero_finite z x :
  is_zero z = true -> is_finite x = true -> is_zero (z * x) = true.
Proof.
  intros Hz Hx. unfold is_zero at 1. rewrite eqb_spec, mul_spec.
  apply is_zero_inv in Hz. apply is_finite_inv in Hx.
  destruct Hx as [[s E]|(s & m & e & E)]; rewrite E;
    destruct Hz as [-> | ->]; destruct s; reflexivity.
Qed.

Lemma mul_nan_l x : nan * x = nan.
Proof.
  apply Prim2SF_inj. rewrite mul_spec.
  change (Prim2SF nan) with S754_nan. reflexivity.
Qed.

Lemma one_SF : Prim2SF 1 = S754_finite false 4503599627370496 (-52).
Proof. reflexivity. Qed.

Lemma digits_shift52 m :
  Zpos (digits2_pos
    (m~0~0~0~0~0~0~0~0~0~0~0~0~0~0~0~0~0~0~0~0~0~0~0~0~0~0
      ~0~0~0~0~0~0~0~0~0~0~0~0~0~0~0~0~0~0~0~0~0~0~0~0~0~0))
  = (Zpos (digits2_pos m) + 52)%Z.
Proof. cbn [digits2_pos]. lia. Qed.

(** The product of 1 and a valid binary64 number is that number: the
    mantissa is shifted left by 52 bits, and rounding shifts it back
    without losing any bit. *)
Lemma SF64mul_one_l x : valid_binary x = true -> SF64mul (Prim2SF 1) x = x.
Proof.
  rewrite one_SF. intros V.
  destruct x as [s|s| |s m e]; try reflexivity.
  cbn [SF64mul SFmul xorb Pos.mul].
  cbn in V. unfold bounded, canonical_mantissa in V.
  apply andb_prop in V. destruct V as [C B].
  apply Z.eqb_eq in C.
  unfold binary_round_aux, shr_fexp. unfold Zdigits2 at 1.
  rewrite digits_shift52.
  replace (Z.pos (digits2_pos m) + 52 + (-52 + e))%Z
    with (Z.pos (digits2_pos m) + e)%Z by lia.
  rewrite C. replace (e - (-52 + e))%Z with 52%Z by lia.
  cbn [shr shr_record_of_loc].
  cbv [iter_pos shr_1 orb].
  cbn [shr_m loc_of_shr_record round_nearest_even Zdigits2].
  replace (-52 + e + 52)%Z with e by lia.
  rewrite C, Z.sub_diag. cbn [shr shr_m shr_record_of_loc].
  change (emax - prec)%Z with 971%Z in B |- *.
  now rewrite B.
Qed.

Lemma mul_one_l x : 1 * x = x.
Proof.
  apply Prim2SF_inj. rewrite mul_spec.
  apply SF64mul_one_l, Prim2SF_valid.
Qed.

(** *** Division by a zero *)

Lemma div_by_zero x z :
  is_zero z = true ->
  x / z = nan \/ x / z = infinity \/ x / z = neg_infinity.
Proof.
  intros Hz. apply is_zero_inv in Hz.
  assert (H : Prim2SF (x / z) = S754_nan
              \/ exists s, Prim2SF (x / z) = S754_infinity s).
  { rewrite div_spec. destruct Hz as [-> | ->];
      destruct (Prim2SF x) as [s|s| |s m e]; cbn; eauto. }
  destruct H as [H | [s H]].
  - left. now apply SF_nan_inv.
  - apply SF_inf_inv in H. destruct s; auto.
Qed.

(** A zero divided by a number that is neither zero nor NaN is a zero. *)
Lemma zero_div p e :
  is_zero p = true -> is_zero e = false -> is_nan e = false ->
  is_zero (p / e) = true.
Proof.
  intros Hp He Hn. apply is_zero_inv in Hp.
  unfold is_zero in He |- *. unfold is_nan in Hn.
  rewrite eqb_spec in He, Hn. rewrite eqb_spec, div_spec.
  destruct (Prim2SF e) as [s|s| |s m x].
  - destruct s; discriminate He.
  - destruct Hp as [-> | ->]; destruct s; reflexivity.
  - discriminate Hn.
  - destruct Hp as [-> | ->]; destruct s; reflexivity.
Qed.

(** *** Comparison *)

Lemma SFcompare_antisym x y :
  SFcompare y x =
  match SFcompare x y with Some c => Some (CompOpp c) | None => None end.
Proof.
  destruct x as [[]|[]| |[] mx ex], y as [[]|[]| |[] my ey];
    try reflexivity;
    cbn [SFcompare]; rewrite (Z.compare_antisym ex ey);
    destruct (ex ?= ey)%Z; cbn [CompOpp]; try reflexivity;
    rewrite (Pos.compare_cont_antisym); cbn [CompOpp]; try reflexivity.
  destruct (Pos.compare_cont Eq mx my); reflexivity.
Qed.

Lemma leb_not_gtb x y : (x <=? y) = true -> (y <? x) = false.
Proof.
  rewrite leb_spec, ltb_spec. unfold SFleb, SFltb.
  rewrite (SFcompare_antisym (Prim2SF x) (Prim2SF y)).
  destruct (SFcompare (Prim2SF x) (Prim2SF y)) as [[]|]; cbn; congruence.
Qed.

Lemma float_neq x y : (x =? y) = false -> is_nan x = false -> x <> y.
Proof.
  intros H N E. subst y. unfold is_nan in N.
  rewrite H in N. discriminate N.
Qed.

End FloatFacts.

(** ** The kinematic helpers *)

(** What one call of [calc_true_fit_vars] leaves in the caller's objects. *)
Lemma calc_true_fit_vars_eq f :
  calc_true_fit_vars f =
  mkFitFrame (LV.M2 (LV.sub (b_mom f) (dst_mom f)) / 1E6)
             (LV.E (LV.Boost (V3.opp (b_lab_v f)) (mu_mom f)) / 1E3)
             (b_lab_v f) (b_mom f) (dst_mom f) (mu_mom f).
Proof. reflexivity. Qed.

(** The time component after a boost. *)
Lemma Boost3_E bx by_ bz q :
  fE (LV.Boost3 bx by_ bz q) =
  1 / sqrt (1 - (bx * bx + by_ * by_ + bz * bz))
  * (fE q + (bx * LV.X q + by_ * LV.Y q + bz * LV.Z q)).
Proof. reflexivity. Qed.

(** C4: the value stored in [q2] is the invariant mass-squared of the
    difference (parent minus resonance) divided by 1e6; it is computed from
    the lab-frame components alone, whatever the boost velocity and the
    muon momentum, and this is the [q2_true] the event loop derives from the
    recorded B and D* momenta. *)
Theorem q2_is_momentum_transfer_squared :
  (forall f,
     q2 (calc_true_fit_vars f)
     = momentum_transfer_squared (b_mom f) (dst_mom f))
  /\ (forall f v m,
        q2 (calc_true_fit_vars
              (mkFitFrame (q2 f) (el f) v (b_mom f) (dst_mom f) m))
        = q2 (calc_true_fit_vars f))
  /\ (forall ev v,
        q2_out (fit_vars ev v)
        = momentum_transfer_squared (lorentz_of (b ev)) (lorentz_of (dst ev))).
Proof.
  repeat split; intros; reflexivity.
Qed.

Example q2_sample :
  q2_out (fit_vars (sample_event 1 sample_b) v_init) = 9746041 / 1E6.
Proof. reflexivity. Qed.

(** C8: after the call the parent's four-momentum and the caller's muon
    four-momentum (as well as the resonance momentum and the velocity) are
    what they were; the boost has changed the callee's copy only. *)
Theorem boost_leaves_caller_momenta f :
  b_mom (calc_true_fit_vars f) = b_mom f
  /\ mu_mom (calc_true_fit_vars f) = mu_mom f
  /\ dst_mom (calc_true_fit_vars f) = dst_mom f
  /\ b_lab_v (calc_true_fit_vars f) = b_lab_v f
  /\ mu_mom_copy
       (execState calc_true_fit_vars_body (mkActivation f (mu_mom f)))
     = LV.Boost (V3.opp (b_lab_v f)) (mu_mom f).
Proof.
  repeat split.
Qed.

(** The copy really differs from the caller's object after a boost. *)
Example boost_changes_copy :
  let f := mkFitFrame 0 0 (mkV3 0 0 0.5) (LV.SetPxPyPzE 0 0 100 200)
                      (LV.SetPxPyPzE 0 0 50 80) (LV.SetPxPyPzE 1 2 3 10) in
  (fE (mu_mom_copy
         (execState calc_true_fit_vars_body (mkActivation f (mu_mom f))))
   =? fE (mu_mom (calc_true_fit_vars f))) = false.
Proof. reflexivity. Qed.

(** C9: on the empty collection the accumulator stays at the zero
    four-vector and the result is 0. *)
Theorem mm2_of_nothing : calc_mm2_with_nu [] = 0.
Proof. reflexivity. Qed.

(** *** Order of the summands *)

Lemma LV_add_first_two a b :
  LV.add (LV.add zero_mom a) b = LV.add (LV.add zero_mom b) a.
Proof.
  unfold LV.add, V3.add, zero_mom, LV.SetPxPyPzE. cbn [fP fE fX fY fZ].
  f_equal; [f_equal|]; apply FloatFacts.first_two_commute.
Qed.

(** C5 (amended): exchanging the first two four-momenta of the collection
    never changes the result. *)
Theorem mm2_first_two_exchange a b rest :
  calc_mm2_with_nu (a :: b :: rest) = calc_mm2_with_nu (b :: a :: rest).
Proof.
  unfold calc_mm2_with_nu. cbn [fold_left].
  now rewrite LV_add_first_two.
Qed.

(** C5 fails as stated: with energies 0.1, 0.2, 0.3 and no momentum the sum
    taken in this order rounds to 0.6000000000000001 and in the reverse order
    to 0.6, and the two results differ. *)
Lemma mm2_depends_on_order :
  Permutation [nu_01; nu_02; nu_03] [nu_03; nu_02; nu_01]
  /\ calc_mm2_with_nu [nu_01; nu_02; nu_03]
     <> calc_mm2_with_nu [nu_03; nu_02; nu_01]
  /\ (calc_mm2_with_nu [nu_01; nu_02; nu_03]
      =? calc_mm2_with_nu [nu_03; nu_02; nu_01]) = false.
Proof.
  split; [|split].
  - apply perm_trans with [nu_02; nu_01; nu_03]; [apply perm_swap|].
    apply perm_trans with [nu_02; nu_03; nu_01];
      [apply perm_skip, perm_swap|].
    apply perm_trans with [nu_03; nu_02; nu_01]; [apply perm_swap|].
    apply Permutation_refl.
  - apply FloatFacts.float_neq; reflexivity.
  - reflexivity.
Qed.

(** *** Boost with a zero velocity *)

Lemma opp_zero x : is_zero x = true -> is_zero (- x) = true.
Proof.
  intros H. apply FloatFacts.is_zero_inv in H.
  destruct H as [-> | ->]; reflexivity.
Qed.

Lemma gamma_at_rest bx by_ bz :
  is_zero bx = true -> is_zero by_ = true -> is_zero bz = true ->
  1 / sqrt (1 - (bx * bx + by_ * by_ + bz * bz)) = 1.
Proof.
  intros Hx Hy Hz. apply FloatFacts.is_zero_inv in Hx, Hy, Hz.
  destruct Hx as [-> | ->], Hy as [-> | ->], Hz as [-> | ->]; reflexivity.
Qed.

Lemma Boost3_at_rest_E bx by_ bz q :
  is_zero bx = true -> is_zero by_ = true -> is_zero bz = true ->
  finite_vector (fP q) ->
  fE (LV.Boost3 bx by_ bz q) = fE q
  \/ (fE q = -0 /\ fE (LV.Boost3 bx by_ bz q) = 0).
Proof.
  intros Hx Hy Hz (Fx & Fy & Fz).
  rewrite Boost3_E, gamma_at_rest, FloatFacts.mul_one_l by assumption.
  apply FloatFacts.add_zero_r.
  repeat apply FloatFacts.add_zeros;
    now apply FloatFacts.mul_zero_finite.
Qed.

(** C7 (amended): with a zero boost velocity and a muon momentum of finite
    components, the energy returned is the muon's lab-frame energy divided
    by 1000: the same double, except that an energy of [-0] can come back as
    [+0]. *)
Theorem rest_frame_energy_zero_boost f :
  zero_vector (b_lab_v f) ->
  finite_vector (fP (mu_mom f)) ->
  num_eq (el (calc_true_fit_vars f)) (fE (mu_mom f) / 1E3)
  /\ (fE (mu_mom f) <> -0 ->
      el (calc_true_fit_vars f) = fE (mu_mom f) / 1E3).
Proof.
  intros (Zx & Zy & Zz) Fin.
  rewrite calc_true_fit_vars_eq. cbn [el].
  unfold LV.E, LV.Boost, V3.opp. cbn [fX fY fZ].
  destruct (Boost3_at_rest_E (- fX (b_lab_v f)) (- fY (b_lab_v f))
              (- fZ (b_lab_v f)) (mu_mom f)) as [H | [H0 H]];
    auto using opp_zero; rewrite H.
  - split; [left|]; reflexivity.
  - rewrite H0. split.
    + right. split; reflexivity.
    + intros N. now elim N.
Qed.

Lemma rest_frame_energy_zero_boost_witness :
  el (calc_true_fit_vars frame_at_rest) = 800 / 1E3.
Proof.
  apply (rest_frame_energy_zero_boost frame_at_rest).
  - repeat split.
  - repeat split.
  - apply FloatFacts.float_neq; reflexivity.
Defined.

(** C7 fails as stated: with a zero velocity, a muon whose [px] is infinite
    gets a NaN energy although its lab-frame energy over 1000 is an ordinary
    number; and a muon energy of [-0] comes back as [+0], a different
    double. *)
Lemma rest_frame_energy_not_for_every_momentum :
  (zero_vector (b_lab_v frame_infinite_px)
   /\ is_nan (el (calc_true_fit_vars frame_infinite_px)) = true
   /\ is_nan (fE (mu_mom frame_infinite_px) / 1E3) = false
   /\ el (calc_true_fit_vars frame_infinite_px)
      <> fE (mu_mom frame_infinite_px) / 1E3)
  /\
  (zero_vector (b_lab_v frame_negative_zero_energy)
   /\ finite_vector (fP (mu_mom frame_negative_zero_energy))
   /\ el (calc_true_fit_vars frame_negative_zero_energy) = 0
   /\ fE (mu_mom frame_negative_zero_energy) / 1E3 = -0
   /\ el (calc_true_fit_vars frame_negative_zero_energy)
      <> fE (mu_mom frame_negative_zero_energy) / 1E3).
Proof.
  split.
  - repeat split.
    intros H. apply (f_equal is_nan) in H. vm_compute in H. discriminate H.
  - repeat split.
    intros H. apply (f_equal get_sign) in H. vm_compute in H.
    discriminate H.
Qed.

(** In the loop: a B with zero spatial momentum and an energy that is
    neither zero nor NaN has a zero velocity, and [el_out] is the recorded
    muon energy over 1000. *)
Lemma el_out_for_b_at_rest ev v :
  is_zero (b_true_px ev) = true -> is_zero (b_true_py ev) = true ->
  is_zero (b_true_pz ev) = true ->
  is_zero (b_true_pe ev) = false -> is_nan (b_true_pe ev) = false ->
  finite_vector (fP (lorentz_of (mu ev))) ->
  num_eq (el_out (fit_vars ev v)) (true_pe (mu ev) / 1E3).
Proof.
  intros Hx Hy Hz He Hn Fin. unfold fit_vars. cbn [el_out].
  rewrite calc_true_fit_vars_eq. cbn [el b_lab_v mu_mom].
  unfold LV.E, LV.Boost, V3.opp. cbn [fX fY fZ].
  destruct (Boost3_at_rest_E (- (b_true_px ev / b_true_pe ev))
              (- (b_true_py ev / b_true_pe ev))
              (- (b_true_pz ev / b_true_pe ev)) (lorentz_of (mu ev)))
    as [H | [H0 H]];
    auto using opp_zero, FloatFacts.zero_div; rewrite H.
  - left. reflexivity.
  - cbn in H0. rewrite H0. right. split; reflexivity.
Qed.

(** *** Division by a zero parent energy *)

Lemma gamma_of_infinite_velocity vx vy vz :
  (vx = nan \/ vx = infinity \/ vx = neg_infinity) ->
  (vy = nan \/ vy = infinity \/ vy = neg_infinity) ->
  (vz = nan \/ vz = infinity \/ vz = neg_infinity) ->
  1 / sqrt (1 - (- vx * - vx + - vy * - vy + - vz * - vz)) = nan.
Proof.
  intros [-> | [-> | ->]] [-> | [-> | ->]] [-> | [-> | ->]]; reflexivity.
Qed.

(** With a zero parent energy the three velocity components are quotients
    by zero, the Lorentz factor is NaN, and so is the energy stored in
    [el_out]. *)
Lemma fit_vars_zero_energy ev v :
  is_zero (b_true_pe ev) = true ->
  el_out (fit_vars ev v) = nan.
Proof.
  intros Hz. unfold fit_vars. cbn [el_out].
  rewrite calc_true_fit_vars_eq. cbn [el b_lab_v mu_mom].
  unfold LV.E, LV.Boost, V3.opp. cbn [fX fY fZ].
  rewrite Boost3_E.
  rewrite gamma_of_infinite_velocity by now apply FloatFacts.div_by_zero.
  now rewrite FloatFacts.mul_nan_l.
Qed.

(** ** The event loop *)

Section ReweightFacts.

Context (api : HammerAPI).

Local Abbreviation State := (LoopState api).

Lemma iteration_output (s : State) ev :
  output (iteration api s ev) =
  (output s ++ if accepted api (s, ev) then [row_of api (s, ev)] else [])%list.
Proof.
  unfold iteration, accepted, row_of, retrieved_weight. cbn [fst snd].
  destruct (submit api (ham s) ev) as [proc_id h]. cbn [fst snd].
  destruct (negb (proc_id =? 0)%N).
  - destruct (evaluate api h) as [w h']. reflexivity.
  - cbn [output]. now rewrite app_nil_r.
Qed.

Lemma iteration_cout (s : State) ev :
  cout (iteration api s ev) =
  (cout s ++ if accepted api (s, ev) then diagnostics_of api (s, ev) else [])%list.
Proof.
  unfold iteration, accepted, diagnostics_of, retrieved_weight.
  cbn [fst snd].
  destruct (submit api (ham s) ev) as [proc_id h]. cbn [fst snd].
  destruct (negb (proc_id =? 0)%N).
  - destruct (evaluate api h) as [w h']. cbn [fst w_ff_out set_w_ff].
    destruct (10 <? w); cbn [cout]; [reflexivity | now rewrite app_nil_r].
  - cbn [cout]. now rewrite app_nil_r.
Qed.

Lemma reweight_from_cons (s : State) ev rest :
  reweight_from api s (ev :: rest) = reweight_from api (iteration api s ev) rest.
Proof. reflexivity. Qed.

Lemma reweight_from_output entries : forall s : State,
  output (reweight_from api s entries) =
  (output s
   ++ map (row_of api) (filter (accepted api) (states_before api s entries)))%list.
Proof.
  induction entries as [|ev rest IH]; intros s.
  - cbn. now rewrite app_nil_r.
  - rewrite reweight_from_cons, IH, iteration_output.
    cbn [states_before filter].
    destruct (accepted api (s, ev)); cbn [map].
    + now rewrite <- app_assoc.
    + now rewrite app_nil_r.
Qed.

Lemma reweight_from_cout entries : forall s : State,
  cout (reweight_from api s entries) =
  (cout s
   ++ flat_map (diagnostics_of api)
        (filter (accepted api) (states_before api s entries)))%list.
Proof.
  induction entries as [|ev rest IH]; intros s.
  - cbn. now rewrite app_nil_r.
  - rewrite reweight_from_cons, IH, iteration_cout.
    cbn [states_before filter].
    destruct (accepted api (s, ev)); cbn [flat_map].
    + now rewrite <- app_assoc.
    + now rewrite app_nil_r.
Qed.

Lemma states_before_events entries : forall s : State,
  map snd (states_before api s entries) = entries.
Proof.
  induction entries as [|ev rest IH]; intros s; cbn; [|rewrite IH];
    reflexivity.
Qed.

Lemma row_of_event (se : State * Event) :
  r_eventNumber (row_of api se) = eventNumber (snd se)
  /\ r_runNumber (row_of api se) = runNumber (snd se)
  /\ w_ff (row_of api se) = retrieved_weight api (fst se) (snd se).
Proof. destruct se as [s ev]. repeat split. Qed.

(** C3: the output tree holds, in input order, exactly the rows of the
    entries whose submission returned a nonzero identifier (one row each,
    carrying the entry's event and run numbers); an entry whose submission
    returned zero adds no row and prints nothing, and the loop goes on with
    the entries after it. *)
Theorem rows_are_accepted_entries entries v0 :
  let s0 := mkLoopState api (setup_hammer api) v0 [] [] in
  let met := states_before api s0 entries in
  let kept := filter (accepted api) met in
  map snd met = entries
  /\ output (reweight api entries v0) = map (row_of api) kept
  /\ map r_eventNumber (output (reweight api entries v0))
     = map (fun se => eventNumber (snd se)) kept
  /\ List.length (output (reweight api entries v0)) = List.length kept
  /\ (forall (s : State) ev rest,
        accepted api (s, ev) = false ->
        output (iteration api s ev) = output s
        /\ cout (iteration api s ev) = cout s
        /\ reweight_from api s (ev :: rest)
           = reweight_from api (iteration api s ev) rest).
Proof.
  intros s0 met kept.
  assert (O : output (reweight api entries v0) = map (row_of api) kept).
  { unfold reweight. now rewrite reweight_from_output. }
  split; [apply states_before_events|].
  split; [exact O|].
  split; [|split].
  - rewrite O, map_map. apply map_ext. intros se. apply row_of_event.
  - rewrite O. apply length_map.
  - intros s ev rest A.
    rewrite iteration_output, iteration_cout, A, !app_nil_r.
    repeat split.
Qed.

(** C6: for an evaluated entry the row is written with the retrieved weight
    as it is; a weight above 10 adds one diagnostic naming the weight and
    the event, a weight of at most 10 adds none; either way the loop goes on
    with the entries after it. *)
Theorem anomalous_weight_is_reported (s : State) ev :
  accepted api (s, ev) = true ->
  let w := retrieved_weight api s ev in
  output (iteration api s ev) = (output s ++ [row_of api (s, ev)])%list
  /\ w_ff (row_of api (s, ev)) = w
  /\ ((10 <? w) = true ->
      cout (iteration api s ev)
      = (cout s ++ [mkDiagnostic w (eventNumber ev)])%list)
  /\ ((w <=? 10) = true -> cout (iteration api s ev) = cout s)
  /\ (forall rest,
        reweight_from api s (ev :: rest)
        = reweight_from api (iteration api s ev) rest).
Proof.
  intros A w.
  rewrite iteration_output, iteration_cout, A.
  unfold diagnostics_of. cbn [fst snd]. fold w.
  repeat split.
  - intros H. now rewrite H.
  - intros H. apply FloatFacts.leb_not_gtb in H. rewrite H.
    apply app_nil_r.
Qed.

(** C2 (amended): the loop has no check on the parent energy.  For an entry
    whose parent energy is zero the velocity is a quotient by zero and the
    derived lepton energy is NaN; the entry is dropped only if its
    submission returns zero, and otherwise its row is written with that
    NaN. *)
Theorem zero_parent_energy_not_rejected (s : State) ev :
  is_zero (b_true_pe ev) = true ->
  (forall v, el_out (fit_vars ev v) = nan)
  /\ (accepted api (s, ev) = true ->
      output (iteration api s ev) = (output s ++ [row_of api (s, ev)])%list
      /\ el_true (row_of api (s, ev)) = nan)
  /\ (accepted api (s, ev) = false ->
      output (iteration api s ev) = output s).
Proof.
  intros Hz. split; [|split].
  - intros v. now apply fit_vars_zero_energy.
  - intros A. rewrite iteration_output, A. split; [reflexivity|].
    cbn [row_of el_true]. now apply fit_vars_zero_energy.
  - intros A. rewrite iteration_output, A. apply app_nil_r.
Qed.

End ReweightFacts.

(** ** Runs with the scripted evaluator *)

(** The scripted run: the second entry is refused and leaves no row, the
    rows of the others come in input order, and only the weight 12.5 is
    reported. *)
Example sample_run :
  let s := reweight (scripted sample_answers) sample_entries v_init in
  map r_eventNumber (output s) = [10; 12; 13]%N
  /\ map w_ff (output s) = [0.75; 12.5; 1]
  /\ cout s = [mkDiagnostic 12.5 12].
Proof. repeat split. Qed.

(** The branch variables before the first entry do not reach the output. *)
Example sample_run_initial_values :
  output (reweight (scripted sample_answers) sample_entries v_init)
  = output (reweight (scripted sample_answers) sample_entries
              (mkBranches 5 6 7 8 9 10)).
Proof. reflexivity. Qed.

Lemma anomalous_weight_is_reported_witness :
  (let s := initial_state (scripted [(7%N, 12.5)]) v_init in
   let ev := sample_event 12 sample_b in
   map w_ff (output (iteration _ s ev)) = [12.5]
   /\ cout (iteration _ s ev) = [mkDiagnostic 12.5 12])
  /\ (let s := initial_state (scripted [(1%N, 0.75)]) v_init in
      let ev := sample_event 10 sample_b in
      map w_ff (output (iteration _ s ev)) = [0.75]
      /\ cout (iteration _ s ev) = []).
Proof.
  split; intros s ev.
  - destruct (anomalous_weight_is_reported _ s ev eq_refl)
      as (O & W & D & _).
    split; [now rewrite O | exact (D eq_refl)].
  - destruct (anomalous_weight_is_reported _ s ev eq_refl)
      as (O & W & _ & D & _).
    split; [now rewrite O | exact (D eq_refl)].
Defined.

Lemma zero_parent_energy_not_rejected_witness :
  let s := initial_state (scripted [(3%N, 1)]) v_init in
  let ev := sample_event 13 zero_energy_b in
  el_true (row_of _ (s, ev)) = nan
  /\ output (iteration _ s ev) = [row_of _ (s, ev)].
Proof.
  intros s ev.
  destruct (zero_parent_energy_not_rejected _ s ev eq_refl) as (_ & A & _).
  destruct (A eq_refl) as [O E]. split; [exact E | exact O].
Defined.

(** C2 fails as stated: an entry whose B has zero energy, submitted to an
    evaluator that returns a nonzero identifier, is not rejected: its row is
    written, and the lepton energy in that row is NaN. *)
Lemma zero_energy_row_is_written :
  is_zero (b_true_pe (sample_event 13 zero_energy_b)) = true
  /\ map r_eventNumber
       (output (reweight (scripted [(3%N, 1)])
                         [sample_event 13 zero_energy_b] v_init))
     = [13%N]
  /\ map (fun r => is_nan (el_true r))
       (output (reweight (scripted [(3%N, 1)])
                         [sample_event 13 zero_energy_b] v_init))
     = [true].
Proof. repeat split. Qed.

(** * Further properties of the program *)

(** ** The sign fix on 32-bit codes *)

Module SignFix.

Import Int32.

Lemma wrap32_range x : in_range (wrap32 x).
Proof.
  unfold in_range, wrap32, min_signed, max_signed, modulus.
  pose proof (Z.mod_pos_bound (x + 2 ^ 31) (2 ^ 32) ltac:(lia)). lia.
Qed.

(** Wrapping a factor first does not change the wrapped product. *)
Lemma wrap32_mul_l x y : wrap32 (wrap32 x * y) = wrap32 (x * y).
Proof.
  unfold wrap32, modulus. f_equal.
  rewrite (Z.mod_eq (x + 2 ^ 31) (2 ^ 32)) by lia.
  set (q := ((x + 2 ^ 31) / 2 ^ 32)%Z).
  replace ((x + 2 ^ 31 - 2 ^ 32 * q - 2 ^ 31) * y + 2 ^ 31)%Z
    with (x * y + 2 ^ 31 + (- q * y) * 2 ^ 32)%Z by ring.
  apply Z.mod_add. lia.
Qed.

(** Except at the most negative value, wrapping commutes with negation. *)
Lemma wrap32_opp x :
  wrap32 x <> min_signed -> wrap32 (- x) = (- wrap32 x)%Z.
Proof.
  unfold wrap32, min_signed, modulus. intros H.
  pose proof (Z.mod_pos_bound (x + 2 ^ 31) (2 ^ 32) ltac:(lia)) as B.
  pose proof (Z.div_mod (x + 2 ^ 31) (2 ^ 32) ltac:(lia)) as D.
  set (r := ((x + 2 ^ 31) mod 2 ^ 32)%Z) in *.
  set (q := ((x + 2 ^ 31) / 2 ^ 32)%Z) in *.
  assert (M : ((- x + 2 ^ 31) mod 2 ^ 32 = 2 ^ 32 - r)%Z).
  { symmetry. apply Z.mod_unique with (q := (- q)%Z); lia. }
  rewrite M. lia.
Qed.

(** The product with the most negative value wraps to that value or to 0. *)
Lemma mul_min_signed d : (mul min_signed d <= 0)%Z.
Proof.
  unfold mul, wrap32, min_signed, modulus.
  replace (- 2 ^ 31 * d + 2 ^ 31)%Z with (2 ^ 31 * (1 - d))%Z by ring.
  change (2 ^ 32)%Z with (2 ^ 31 * 2)%Z.
  rewrite Z.mul_mod_distr_l by lia.
  pose proof (Z.mod_pos_bound (1 - d) 2 ltac:(lia)). lia.
Qed.

End SignFix.

(** X3: for a parent code in the 32-bit range the fix returns the code or
    its exact opposite (the negation never overflows), the result is again in
    range, its 32-bit product with the resonance code is never positive, and
    fixing a second time changes nothing. *)
Theorem sign_fix_settles b_id dst_id :
  Int32.in_range b_id ->
  (b_id_fix b_id dst_id = b_id \/ b_id_fix b_id dst_id = (- b_id)%Z)
  /\ Int32.in_range (b_id_fix b_id dst_id)
  /\ (Int32.mul (b_id_fix b_id dst_id) dst_id <= 0)%Z
  /\ b_id_fix (b_id_fix b_id dst_id) dst_id = b_id_fix b_id dst_id.
Proof.
  intros R.
  assert (P : (Int32.mul (b_id_fix b_id dst_id) dst_id <= 0)%Z).
  { unfold b_id_fix. destruct (0 <? Int32.mul b_id dst_id)%Z eqn:C.
    - apply Z.ltb_lt in C. unfold Int32.mul, Int32.neg in *.
      rewrite SignFix.wrap32_mul_l, Z.mul_opp_l, SignFix.wrap32_opp.
      + lia.
      + unfold Int32.min_signed. lia.
    - apply Z.ltb_ge in C. exact C. }
  assert (F : b_id_fix b_id dst_id = b_id
              \/ (b_id_fix b_id dst_id = (- b_id)%Z
                  /\ b_id <> Int32.min_signed)).
  { unfold b_id_fix. destruct (0 <? Int32.mul b_id dst_id)%Z eqn:C; auto.
    apply Z.ltb_lt in C. right.
    assert (N : b_id <> Int32.min_signed).
    { intros ->. pose proof (SignFix.mul_min_signed dst_id). lia. }
    split; [|exact N].
    apply Int32Facts.wrap32_in_range.
    unfold Int32.in_range, Int32.min_signed, Int32.max_signed in *. lia. }
  repeat split.
  - destruct F as [F | [F _]]; auto.
  - destruct F as [-> | [-> N]];
      unfold Int32.in_range, Int32.min_signed, Int32.max_signed in *; lia.
  - destruct F as [-> | [-> N]];
      unfold Int32.in_range, Int32.min_signed, Int32.max_signed in *; lia.
  - exact P.
  - unfold b_id_fix at 1.
    destruct (0 <? Int32.mul (b_id_fix b_id dst_id) dst_id)%Z eqn:C;
      [|reflexivity].
    apply Z.ltb_lt in C. lia.
Qed.

Lemma sign_fix_settles_witness :
  (b_id_fix 511 413 = -511)%Z
  /\ (b_id_fix (b_id_fix 511 413) 413 = b_id_fix 511 413)%Z.
Proof.
  split.
  - reflexivity.
  - apply (sign_fix_settles 511%Z 413%Z). vm_compute. split; discriminate.
Defined.

(** ** The decay tree *)

Section DecayTree.

Variables B0 Dst D0 SlowPi K Pi Tau Anti_Nu_Tau Nu_Tau Mu Anti_Nu_Mu
  : Particle.

Variable proc0 : Process.

Let tree : Process :=
  execState
    (add_ham_part_Tau B0 Dst D0 SlowPi K Pi Tau Anti_Nu_Tau Nu_Tau
                      Mu Anti_Nu_Mu)
    proc0.

Let n : nat := List.length (proc_particles proc0).

(** What [add_ham_part_Tau] leaves in a process, whatever it held before. *)
Lemma add_ham_part_Tau_result :
  tree =
  mkProcess
    (proc_particles proc0
     ++ [B0; Dst; SlowPi; D0; K; Pi; Mu; Tau; Anti_Nu_Mu; Anti_Nu_Tau;
         Nu_Tau])
    (proc_vertices proc0 ++ tau_vertices n).
Proof.
  unfold tree, tau_vertices, n. cbn.
  repeat rewrite <- app_assoc. cbn [app].
  repeat rewrite length_app. cbn [List.length].
  repeat rewrite <- Nat.add_assoc. cbn [Nat.add].
  reflexivity.
Qed.

Lemma nth_error_new (old new : list Particle) i :
  nth_error (old ++ new) (List.length old + i) = nth_error new i.
Proof.
  rewrite nth_error_app2 by lia. f_equal. lia.
Qed.

(** X1: although the particles are registered in an order that differs from
    the parameter order, the indices of the four vertices refer to the
    intended particles: B0 to D*, tau and anti-nu_tau; tau to mu, nu_tau
    and anti-nu_mu; D* to D0 and the slow pion; D0 to K and pi.  This holds
    for any content the process had before. *)
Theorem vertices_refer_to_intended_particles :
  exists added,
    proc_vertices tree = (proc_vertices proc0 ++ added)%list
    /\ List.length added = 4%nat
    /\ map (resolve tree) added =
       [(Some B0, [Some Dst; Some Tau; Some Anti_Nu_Tau]);
        (Some Tau, [Some Mu; Some Nu_Tau; Some Anti_Nu_Mu]);
        (Some Dst, [Some D0; Some SlowPi]);
        (Some D0, [Some K; Some Pi])].
Proof.
  exists (tau_vertices n). rewrite add_ham_part_Tau_result.
  cbn [proc_vertices]. repeat split.
  unfold tau_vertices, resolve, n.
  cbn [map fst snd proc_particles].
  rewrite <- (Nat.add_0_r (List.length (proc_particles proc0))) at 1.
  rewrite !nth_error_new. reflexivity.
Qed.

(** X2: the added vertices form a tree over the eleven added particles:
    every added particle except the first (B0) is the daughter of exactly
    one vertex, B0 and the earlier particles are daughters of none, no
    particle is the parent of two vertices, and every parent other than B0
    is itself a daughter. *)
Theorem added_vertices_form_a_tree :
  proc_vertices tree = (proc_vertices proc0 ++ tau_vertices n)%list
  /\ List.length (proc_particles tree) = (n + 11)%nat
  /\ NoDup (daughters (tau_vertices n))
  /\ (forall i, In i (daughters (tau_vertices n)) <-> (n < i <= n + 10)%nat)
  /\ NoDup (map fst (tau_vertices n))
  /\ (forall i, In i (map fst (tau_vertices n)) ->
                i = n \/ In i (daughters (tau_vertices n))).
Proof.
  rewrite add_ham_part_Tau_result. cbn [proc_particles proc_vertices].
  split; [reflexivity|].
  rewrite length_app. fold n. cbn [List.length].
  unfold tau_vertices, daughters. cbn [flat_map map fst snd app].
  split; [lia|]. split; [|split; [|split]].
  - repeat (constructor; [cbn [In]; lia|]). constructor.
  - intros i. unfold ParticleIndex in i. cbn [In]. lia.
  - repeat (constructor; [cbn [In]; lia|]). constructor.
  - intros i. unfold ParticleIndex in i. cbn [In]. lia.
Qed.

End DecayTree.

(** ** Signed zeros and squares *)

Module SignedZero.

Import FloatFacts.

Lemma num_eq_refl x : num_eq x x.
Proof. now left. Qed.

(** Adding the same number to two equal numbers gives equal numbers. *)
Lemma num_eq_add x y c : num_eq x y -> num_eq (x + c) (y + c).
Proof.
  intros [-> | [Zx Zy]]; [apply num_eq_refl|].
  rewrite (float_add_comm x c), (float_add_comm y c).
  destruct (add_zero_r c x Zx) as [Hx | [C Hx]],
           (add_zero_r c y Zy) as [Hy | [C' Hy]];
    rewrite Hx, Hy; try apply num_eq_refl; subst c;
    right; split; reflexivity.
Qed.

(** Equal numbers have the same square: the sign of a zero is lost. *)
Lemma num_eq_square x y : num_eq x y -> x * x = y * y.
Proof.
  intros [-> | [Zx Zy]]; [reflexivity|].
  apply is_zero_inv in Zx, Zy.
  destruct Zx as [-> | ->], Zy as [-> | ->]; reflexivity.
Qed.

Lemma num_eq_zero_add a : num_eq (0 + a) a.
Proof.
  destruct (zero_add_l a) as [[Z E] | [_ E]]; rewrite E.
  - right. split; [reflexivity | exact Z].
  - apply num_eq_refl.
Qed.

Lemma lv_num_eq_add p q c : lv_num_eq p q -> lv_num_eq (LV.add p c) (LV.add q c).
Proof.
  intros (Hx & Hy & Hz & Ht).
  repeat split; cbn; now apply num_eq_add.
Qed.

Lemma lv_num_eq_fold l : forall p q,
  lv_num_eq p q -> lv_num_eq (fold_left LV.add l p) (fold_left LV.add l q).
Proof.
  induction l as [|c l IH]; intros p q H; cbn [fold_left]; [exact H|].
  now apply IH, lv_num_eq_add.
Qed.

Lemma lv_num_eq_M2 p q : lv_num_eq p q -> LV.M2 p = LV.M2 q.
Proof.
  intros (Hx & Hy & Hz & Ht). unfold LV.M2, V3.Mag2.
  change (fX (fP p)) with (LV.X p). change (fX (fP q)) with (LV.X q).
  change (fY (fP p)) with (LV.Y p). change (fY (fP q)) with (LV.Y q).
  change (fZ (fP p)) with (LV.Z p). change (fZ (fP q)) with (LV.Z q).
  now rewrite (num_eq_square _ _ Hx), (num_eq_square _ _ Hy),
    (num_eq_square _ _ Hz), (num_eq_square _ _ Ht).
Qed.

(** *** Subtraction in the two orders *)

Lemma SFopp_binary_round_aux s m e l :
  SFopp (binary_round_aux prec emax s m e l)
  = binary_round_aux prec emax (negb s) m e l.
Proof.
  unfold binary_round_aux.
  destruct (shr_fexp prec emax m e l) as [mrs' e'].
  destruct (shr_fexp prec emax _ e' loc_Exact) as [mrs'' e''].
  destruct (shr_m mrs'') as [|p|p]; try reflexivity.
  destruct (e'' <=? emax - prec)%Z; reflexivity.
Qed.

Lemma SFopp_binary_round s m e :
  SFopp (binary_round prec emax s m e) = binary_round prec emax (negb s) m e.
Proof.
  unfold binary_round.
  destruct (shl_align m e _) as [mz ez].
  apply SFopp_binary_round_aux.
Qed.

(** [y - x] is the opposite of [x - y], unless both are [+0]. *)
Lemma SF64sub_swap x y :
  SF64sub y x = SFopp (SF64sub x y)
  \/ (SF64sub x y = S754_zero false /\ SF64sub y x = S754_zero false).
Proof.
  destruct x as [[]|[]| |sx mx ex], y as [[]|[]| |sy my ey];
    try (left; reflexivity); try (right; split; reflexivity);
    try (left; cbn; now rewrite ?negb_involutive).
  unfold SF64sub, SFsub. rewrite (Z.min_comm ey ex).
  set (a := cond_Zopp sx (Z.pos (fst (shl_align mx ex (Z.min ex ey))))).
  set (b := cond_Zopp sy (Z.pos (fst (shl_align my ey (Z.min ex ey))))).
  replace (b - a)%Z with (- (a - b))%Z by ring.
  destruct (a - b)%Z as [|p|p]; cbn [Z.opp binary_normalize].
  - right. split; reflexivity.
  - left. now rewrite SFopp_binary_round.
  - left. now rewrite SFopp_binary_round.
Qed.

Lemma SF64mul_opp_opp z : SF64mul (SFopp z) (SFopp z) = SF64mul z z.
Proof. destruct z as [[]|[]| |[] m e]; reflexivity. Qed.

(** The square of a difference does not depend on the order. *)
Lemma sub_square_swap x y : (y - x) * (y - x) = (x - y) * (x - y).
Proof.
  apply Prim2SF_inj. rewrite !mul_spec, !sub_spec.
  destruct (SF64sub_swap (Prim2SF x) (Prim2SF y)) as [H | [H H']].
  - rewrite H. apply SF64mul_opp_opp.
  - now rewrite H, H'.
Qed.

End SignedZero.

(** X4: starting the sum from the zero four-vector costs nothing: for a
    non-empty collection the result is the invariant mass-squared of the
    momenta added from the first one on, divided by 1e6; in particular the
    result for a single four-momentum is its own mass-squared over 1e6. *)
Theorem mm2_from_first_momentum a rest :
  calc_mm2_with_nu (a :: rest) = LV.M2 (fold_left LV.add rest a) / 1E6
  /\ calc_mm2_with_nu [a] = LV.M2 a / 1E6.
Proof.
  assert (H : forall l,
             calc_mm2_with_nu (a :: l) = LV.M2 (fold_left LV.add l a) / 1E6).
  { intros l. unfold calc_mm2_with_nu. cbn [fold_left]. f_equal.
    apply SignedZero.lv_num_eq_M2, SignedZero.lv_num_eq_fold.
    repeat split; apply SignedZero.num_eq_zero_add. }
  split; [apply H | apply (H [])].
Qed.

(** The value [reweight] stores in [mm2_out]. *)
Lemma mm2_out_of_three_neutrinos ev v :
  mm2_out (fit_vars ev v)
  = LV.M2 (LV.add (LV.add (lorentz_of (nu_tau ev)) (lorentz_of (anu_tau ev)))
                  (lorentz_of (anu_mu ev))) / 1E6.
Proof.
  unfold fit_vars, calc_mm2_with_nu. cbn [mm2_out fold_left]. f_equal.
  apply SignedZero.lv_num_eq_M2.
  do 2 apply SignedZero.lv_num_eq_add.
  repeat split; apply SignedZero.num_eq_zero_add.
Qed.

(** X5: exchanging the parent and the resonance four-momenta does not
    change [q2]: the difference changes sign (or stays [+0]) in every
    component, and only squares of the components are used. *)
Theorem q2_exchange f :
  q2 (calc_true_fit_vars
        (mkFitFrame (q2 f) (el f) (b_lab_v f) (dst_mom f) (b_mom f)
                    (mu_mom f)))
  = q2 (calc_true_fit_vars f).
Proof.
  rewrite !calc_true_fit_vars_eq. cbn [q2 b_mom dst_mom].
  unfold LV.M2, LV.sub, V3.Mag2, V3.sub, LV.T. cbn [fP fE fX fY fZ].
  now rewrite (SignedZero.sub_square_swap (fE (b_mom f))),
    (SignedZero.sub_square_swap (fX (fP (b_mom f)))),
    (SignedZero.sub_square_swap (fY (fP (b_mom f)))),
    (SignedZero.sub_square_swap (fZ (fP (b_mom f)))).
Qed.

Example q2_exchange_sample :
  q2 (calc_true_fit_vars
        (mkFitFrame 0 0 (mkV3 0 0 0) (LV.SetPxPyPzE 0 0 600 2100)
                    (LV.SetPxPyPzE 0 0 0 5279) (LV.SetPxPyPzE 0 0 0 0)))
  = 9746041 / 1E6.
Proof. reflexivity. Qed.

(** ** More on the event loop *)

Module FloatNaN.

Lemma SFcompare_refl x : x <> S754_nan -> SFcompare x x = Some Eq.
Proof.
  destruct x as [[]|[]| |[] m e]; intros H; try reflexivity;
    try (now elim H); cbn [SFcompare];
    rewrite Z.compare_refl, Pos.compare_cont_refl; reflexivity.
Qed.

Lemma is_nan_inv x : is_nan x = true -> x = nan.
Proof.
  unfold is_nan. rewrite eqb_spec. intros H.
  apply FloatFacts.SF_nan_inv.
  destruct (Prim2SF x) as [s|s| |s m e] eqn:E; [| |reflexivity|];
    unfold SFeqb in H; rewrite SFcompare_refl in H by discriminate;
    discriminate H.
Qed.

End FloatNaN.

Section LoopFacts.

Context (api : HammerAPI).

Local Abbreviation State := (LoopState api).

(** A pass through the loop body reads the loop state only through the
    evaluator: the branch variables, the rows and the printed lines of the
    state do not influence what the pass adds. *)
Lemma iteration_reads_ham_only (s s' : State) ev :
  ham s = ham s' ->
  ham (iteration api s ev) = ham (iteration api s' ev)
  /\ accepted api (s, ev) = accepted api (s', ev)
  /\ row_of api (s, ev) = row_of api (s', ev)
  /\ diagnostics_of api (s, ev) = diagnostics_of api (s', ev).
Proof.
  destruct s as [h v o c], s' as [h' v' o' c']. cbn [ham]. intros <-.
  unfold iteration, accepted, row_of, diagnostics_of, retrieved_weight.
  cbn [ham fst snd vars].
  destruct (submit api h ev) as [proc_id h1]. cbn [fst snd].
  destruct (negb (proc_id =? 0)%N); [|repeat split].
  destruct (evaluate api h1) as [w h2]. repeat split.
Qed.

Lemma reweight_from_reads_ham_only entries : forall s s' : State,
  ham s = ham s' -> output s = output s' -> cout s = cout s' ->
  ham (reweight_from api s entries) = ham (reweight_from api s' entries)
  /\ output (reweight_from api s entries)
     = output (reweight_from api s' entries)
  /\ cout (reweight_from api s entries) = cout (reweight_from api s' entries).
Proof.
  induction entries as [|ev rest IH]; intros s s' Hh Ho Hc.
  - repeat split; assumption.
  - rewrite !reweight_from_cons.
    destruct (iteration_reads_ham_only s s' ev Hh) as (H1 & H2 & H3 & H4).
    apply IH; [exact H1 | |].
    + now rewrite !iteration_output, Ho, H2, H3.
    + now rewrite !iteration_cout, Hc, H2, H4.
Qed.

(** X6: nothing of the branch variables' earlier content reaches the
    results: two runs over the same entries that start from different
    (uninitialised) branch variables write the same rows, print the same
    lines and leave the evaluator in the same state; and the row of an entry
    does not depend on the values an earlier entry left in the branch
    variables. *)
Theorem results_ignore_stale_branch_variables :
  (forall entries v0 v0',
     output (reweight api entries v0) = output (reweight api entries v0')
     /\ cout (reweight api entries v0) = cout (reweight api entries v0')
     /\ ham (reweight api entries v0) = ham (reweight api entries v0'))
  /\ (forall (s : State) v' ev,
        row_of api (mkLoopState api (ham s) v' (output s) (cout s), ev)
        = row_of api (s, ev)).
Proof.
  split.
  - intros entries v0 v0'. unfold reweight.
    destruct (reweight_from_reads_ham_only entries
                (mkLoopState api (setup_hammer api) v0 [] [])
                (mkLoopState api (setup_hammer api) v0' [] []))
      as (H1 & H2 & H3); auto.
  - intros s v' ev.
    now destruct (iteration_reads_ham_only
                    (mkLoopState api (ham s) v' (output s) (cout s)) s ev
                    eq_refl) as (_ & _ & H & _).
Qed.

Lemma flat_map_short {A B} (f : A -> list B) l :
  (forall x, List.length (f x) <= 1)%nat ->
  (List.length (flat_map f l) <= List.length l)%nat.
Proof.
  intros H. induction l as [|x l IH]; cbn [flat_map]; [apply Nat.le_refl|].
  rewrite length_app. cbn [List.length]. specialize (H x). lia.
Qed.

(** X7: over a whole run the printed lines are, in input order, one for
    each written row whose weight exceeds 10: there are never more lines
    than rows, and every line carries the event number and the weight of a
    row of the output, with a weight above 10. *)
Theorem every_diagnostic_has_its_row entries v0 :
  let s := reweight api entries v0 in
  let kept := filter (accepted api)
                (states_before api (initial_state api v0) entries) in
  output s = map (row_of api) kept
  /\ cout s = flat_map (diagnostics_of api) kept
  /\ (List.length (cout s) <= List.length (output s))%nat
  /\ (forall d, In d (cout s) ->
        (10 <? diag_weight d) = true
        /\ exists r, In r (output s)
                     /\ r_eventNumber r = diag_eventNumber d
                     /\ w_ff r = diag_weight d).
Proof.
  intros s kept.
  assert (O : output s = map (row_of api) kept).
  { unfold s, reweight. now rewrite reweight_from_output. }
  assert (C : cout s = flat_map (diagnostics_of api) kept).
  { unfold s, reweight. now rewrite reweight_from_cout. }
  split; [exact O|]. split; [exact C|]. split.
  - rewrite O, C, length_map. apply flat_map_short.
    intros se. unfold diagnostics_of.
    destruct (10 <? _); cbn; lia.
  - intros d Hd. rewrite C in Hd. apply in_flat_map in Hd.
    destruct Hd as (se & Hse & Hd). unfold diagnostics_of in Hd.
    destruct (10 <? retrieved_weight api (fst se) (snd se)) eqn:W;
      [|contradiction].
    destruct Hd as [<- | []]. cbn [diag_weight diag_eventNumber].
    split; [exact W|].
    exists (row_of api se). rewrite O. split; [now apply in_map|].
    destruct se as [s1 ev]. split; reflexivity.
Qed.

(** X10: a NaN weight is not above 10 for the comparison the loop makes:
    the row of such an entry is written with the NaN weight and no line is
    printed for it. *)
Theorem nan_weight_goes_unreported (s : State) ev :
  accepted api (s, ev) = true ->
  is_nan (retrieved_weight api s ev) = true ->
  output (iteration api s ev) = (output s ++ [row_of api (s, ev)])%list
  /\ is_nan (w_ff (row_of api (s, ev))) = true
  /\ cout (iteration api s ev) = cout s.
Proof.
  intros A Hn. rewrite iteration_output, iteration_cout, A.
  split; [reflexivity|]. split; [exact Hn|].
  unfold diagnostics_of. cbn [fst snd].
  apply FloatNaN.is_nan_inv in Hn. rewrite Hn.
  apply app_nil_r.
Qed.

(** X9: for an accepted entry whose B is at rest (zero spatial momentum,
    an energy that is neither zero nor NaN) and whose muon momentum is
    finite, the velocity the loop computes is zero and the row's [el_true]
    is the recorded muon energy divided by 1000. *)
Theorem el_true_for_b_at_rest (s : State) ev :
  accepted api (s, ev) = true ->
  b_at_rest ev ->
  output (iteration api s ev) = (output s ++ [row_of api (s, ev)])%list
  /\ num_eq (el_true (row_of api (s, ev))) (true_pe (mu ev) / 1E3).
Proof.
  intros A (Hx & Hy & Hz & He & Hn & Fin).
  rewrite iteration_output, A. split; [reflexivity|].
  cbn [row_of el_true]. now apply el_out_for_b_at_rest.
Qed.

End LoopFacts.

Lemma nan_weight_goes_unreported_witness :
  cout (iteration _ (initial_state (scripted [(1%N, nan)]) v_init)
                  (sample_event 10 sample_b)) = []
  /\ map (fun r => is_nan (w_ff r))
       (output (iteration _ (initial_state (scripted [(1%N, nan)]) v_init)
                          (sample_event 10 sample_b))) = [true].
Proof.
  destruct (nan_weight_goes_unreported _
              (initial_state (scripted [(1%N, nan)]) v_init)
              (sample_event 10 sample_b) eq_refl eq_refl) as (O & N & C).
  split; [exact C|]. now rewrite O.
Defined.

Lemma el_true_for_b_at_rest_witness :
  num_eq
    (el_true (row_of _ (initial_state (scripted [(1%N, 1)]) v_init,
                        sample_event 10 sample_b)))
    (800 / 1E3).
Proof.
  apply (el_true_for_b_at_rest _
           (initial_state (scripted [(1%N, 1)]) v_init)
           (sample_event 10 sample_b) eq_refl).
  repeat split.
Defined.

(** ** The calls made on the evaluator *)

Section Protocol.

Context (api : HammerAPI).

Lemma setup_traced :
  setup_hammer (traced api) = (setup_hammer api, setup_calls).
Proof. reflexivity. Qed.

(** One pass on the recording evaluator: the same results as on the plain
    one, and the calls of the pass added to the record. *)
Lemma iteration_traced (st : LoopState (traced api)) (s : LoopState api) ev :
  same_run st s ->
  same_run (iteration (traced api) st ev) (iteration api s ev)
  /\ snd (ham (iteration (traced api) st ev))
     = (snd (ham st) ++ entry_calls ev (accepted api (s, ev)))%list.
Proof.
  destruct st as [[h cs] v o c], s as [h' v' o' c'].
  unfold same_run. cbn [ham vars output cout fst snd].
  intros (<- & <- & <- & <-).
  unfold iteration, accepted, entry_calls, submit, evaluate.
  cbn [ham vars output cout fst snd traced addProcess initEvent
       processEvent getWeight note].
  destruct (addProcess api (build_process ev) (initEvent api h))
    as [proc_id h1]. cbn [fst snd].
  destruct (negb (proc_id =? 0)%N).
  - destruct (getWeight api "SemiTauonic" (processEvent api h1))
      as [w h2]. cbn [fst snd ham vars output cout].
    repeat split. unfold note. cbn [snd app].
    now rewrite <- !app_assoc.
  - cbn [fst snd ham vars output cout]. repeat split.
    unfold note. cbn [snd app].
    now rewrite <- !app_assoc.
Qed.

Lemma reweight_from_traced entries :
  forall (st : LoopState (traced api)) (s : LoopState api),
  same_run st s ->
  same_run (reweight_from (traced api) st entries)
           (reweight_from api s entries)
  /\ snd (ham (reweight_from (traced api) st entries))
     = (snd (ham st)
        ++ flat_map (fun se => entry_calls (snd se) (accepted api se))
             (states_before api s entries))%list.
Proof.
  induction entries as [|ev rest IH]; intros st s R.
  - cbn. split; [exact R | now rewrite app_nil_r].
  - rewrite !reweight_from_cons. cbn [states_before flat_map snd].
    destruct (iteration_traced st s ev R) as [R' T].
    destruct (IH _ _ R') as [R'' T'].
    split; [exact R''|].
    now rewrite T', T, <- app_assoc.
Qed.

(** X8: the calls a run makes on the evaluator, in order: the five
    configuration calls once, before anything else; then for every entry
    [initEvent] and [addProcess] with the entry's process, followed by
    [processEvent] and [getWeight("SemiTauonic")] exactly when the
    identifier returned was nonzero.  Recording the calls changes neither
    the rows nor the printed lines. *)
Theorem evaluator_call_sequence entries v0 :
  let traced_run := reweight (traced api) entries v0 in
  output traced_run = output (reweight api entries v0)
  /\ cout traced_run = cout (reweight api entries v0)
  /\ fst (ham traced_run) = ham (reweight api entries v0)
  /\ snd (ham traced_run)
     = (setup_calls
        ++ flat_map (fun se => entry_calls (snd se) (accepted api se))
             (states_before api (initial_state api v0) entries))%list.
Proof.
  intros traced_run. unfold traced_run, reweight.
  destruct (reweight_from_traced entries
              (mkLoopState (traced api) (setup_hammer (traced api)) v0 [] [])
              (initial_state api v0)) as [(Hh & _ & Ho & Hc) T].
  { rewrite setup_traced. repeat split. }
  rewrite setup_traced in T.
  repeat split; assumption.
Qed.

End Protocol.

(** The calls of the scripted sample run: the refused second entry is
    followed by neither [processEvent] nor [getWeight]. *)
Example sample_run_calls :
  snd (ham (reweight (traced (scripted sample_answers))
                     (firstn 2 sample_entries) v_init))
  = (setup_calls
     ++ [InitEvent; AddProcess (build_process (sample_event 10 sample_b));
         ProcessEvent; GetWeight "SemiTauonic";
         InitEvent; AddProcess (build_process (sample_event 11 sample_b))])%list.
Proof. reflexivity. Qed.

(** ** Rows are only ever appended *)

Section Streaming.

Context (api : HammerAPI).

Lemma filter_length_le {A} (f : A -> bool) l :
  (List.length (filter f l) <= List.length l)%nat.
Proof.
  induction l as [|x l IH]; cbn [filter List.length]; [lia|].
  destruct (f x); cbn [List.length]; lia.
Qed.

Lemma states_before_length entries : forall s : LoopState api,
  List.length (states_before api s entries) = List.length entries.
Proof.
  induction entries as [|ev rest IH]; intros s; cbn; [|rewrite IH];
    reflexivity.
Qed.

(** X11: the output is append-only and never longer than the input: the
    rows written for a list of entries followed by further entries are the
    rows written for the first list followed by at most one row per further
    entry, and the same holds for the printed lines. *)
Theorem further_entries_only_append first further v0 :
  let before := reweight api first v0 in
  let after := reweight api (first ++ further) v0 in
  (exists rows,
     output after = (output before ++ rows)%list
     /\ (List.length rows <= List.length further)%nat)
  /\ (exists lines,
        cout after = (cout before ++ lines)%list
        /\ (List.length lines <= List.length further)%nat)
  /\ (List.length (output after) <= List.length (first ++ further))%nat.
Proof.
  intros before after.
  assert (E : after = reweight_from api before further).
  { unfold after, before, reweight, reweight_from. apply fold_left_app. }
  split; [|split].
  - rewrite E, reweight_from_output. eexists. split; [reflexivity|].
    rewrite length_map.
    etransitivity; [apply filter_length_le|].
    now rewrite states_before_length.
  - rewrite E, reweight_from_cout. eexists. split; [reflexivity|].
    etransitivity.
    + apply flat_map_short. intros se. unfold diagnostics_of.
      destruct (10 <? _); cbn; lia.
    + etransitivity; [apply filter_length_le|].
      now rewrite states_before_length.
  - unfold after, reweight. rewrite reweight_from_output. cbn [output app].
    rewrite length_map.
    etransitivity; [apply filter_length_le|].
    now rewrite states_before_length.
Qed.

End Streaming.

(** ** The observables and the submitted tree *)

(** X12: the observables written for an entry are those of the tree handed
    to the evaluator: [q2_true] is computed from the momenta of the tree's
    particles 0 (the B) and 1 (the resonance), [mm2_true] from those of
    particles 10, 9 and 8 (the three neutrinos), and [el_true] from
    particle 6 (the muon) boosted by the velocity of particle 0; the sign
    fix of the B code has no part in them. *)
Theorem observables_of_the_submitted_tree ev v :
  let tree := build_process ev in
  let p := tree_momentum tree in
  q2_out (fit_vars ev v) = momentum_transfer_squared (p 0%nat) (p 1%nat)
  /\ mm2_out (fit_vars ev v)
     = calc_mm2_with_nu [p 10%nat; p 9%nat; p 8%nat]
  /\ el_out (fit_vars ev v)
     = LV.E (LV.Boost
               (V3.opp (mkV3 (LV.X (p 0%nat) / LV.E (p 0%nat))
                             (LV.Y (p 0%nat) / LV.E (p 0%nat))
                             (LV.Z (p 0%nat) / LV.E (p 0%nat))))
               (p 6%nat)) / 1E3.
Proof.
  intros tree p. repeat split.
Qed.
